(** * PoseDetectionApp: a shallow embedding of [PoseDetection.tsx]

    The component captures a webcam stream, runs a pose estimator on each
    frame and draws keypoints and skeleton edges on a canvas overlay.

    - JavaScript numbers are IEEE 754 binary64 values: Rocq's primitive
      [float], with the comparisons of [PrimFloat].
    - A keypoint is the estimator's object [{x, y, score?, name?}]; a pose
      holds an array of them, searched with [Array.prototype.find].
    - The 2D rendering context is an explicit state (current transform and
      styles, the save/restore stack, the current path, the paint log).
    - The asynchronous initialisation code is a tree of calls to the browser
      and to the model library, run against an arbitrary world. *)

From Stdlib Require Import Floats List String Bool ZArith NArith Lia.
Import ListNotations.

Local Open Scope string_scope.
Local Open Scope list_scope.

(** ** JavaScript numbers *)

Module JsNum.

Definition number : Type := float.

(** [a < b] and [a > b] on numbers; both are false when a NaN is involved. *)
Definition lt (a b : number) : bool := PrimFloat.ltb a b.
Definition gt (a b : number) : bool := PrimFloat.ltb b a.
Definition le (a b : number) : bool := PrimFloat.leb a b.

(** [Math.abs], binary [-], unary [-], [*]. *)
Definition Math_abs (a : number) : number := PrimFloat.abs a.
Definition minus (a b : number) : number := PrimFloat.sub a b.
Definition neg (a : number) : number := PrimFloat.opp a.
Definition times (a b : number) : number := PrimFloat.mul a b.
Definition plus (a b : number) : number := PrimFloat.add a b.

(** [Math.PI], the double nearest to pi. *)
Definition Math_PI : number := 0x1.921fb54442d18p+1%float.

(** An unsigned long (a canvas or video dimension) read as a number. *)
Definition ofN (n : N) : number :=
  PrimFloat.of_uint63 (Uint63.of_Z (Z.of_N n)).

End JsNum.

Import JsNum.

(** ** Keypoints and poses *)

(** The estimator's [Keypoint]: [score] and [name] are optional fields. *)
Record Keypoint : Type := mkKeypoint {
  x : number;
  y : number;
  score : option number;
  name : option string
}.

(** The estimator's [Pose], reduced to the field the component reads. *)
Record Pose : Type := mkPose {
  keypoints : list Keypoint
}.

(** The callback [kp => kp.name === n]. *)
Definition nameIs (n : string) (kp : Keypoint) : bool :=
  match name kp with
  | Some m => String.eqb m n
  | None => false
  end.

(** [pose.keypoints.find(kp => kp.name === n)]: the first keypoint so named,
    or [undefined]. *)
Definition findByName (n : string) (pose : Pose) : option Keypoint :=
  find (nameIs n) (keypoints pose).

Definition isPerfectAngle (pose : Pose) : bool :=
  let leftShoulder := findByName "left_shoulder" pose in
  let rightShoulder := findByName "right_shoulder" pose in
  let leftHip := findByName "left_hip" pose in
  let rightHip := findByName "right_hip" pose in
  match leftShoulder, rightShoulder, leftHip, rightHip with
  | Some leftShoulder, Some rightShoulder, Some leftHip, Some rightHip =>
      let shoulderDiff := Math_abs (minus (y leftShoulder) (y rightShoulder)) in
      let hipDiff := Math_abs (minus (y leftHip) (y rightHip)) in
      lt shoulderDiff 20%float && lt hipDiff 20%float
  | _, _, _, _ => false
  end.

(** A keypoint of the given name is in the pose's collection. *)
Definition present (n : string) (pose : Pose) : Prop :=
  exists kp, In kp (keypoints pose) /\ name kp = Some n.

(** The four names the verdict looks up. *)
Definition requiredNames : list string :=
  ["left_shoulder"; "right_shoulder"; "left_hip"; "right_hip"].

(** The pose with every score replaced by what [f] gives. *)
Definition withScores (f : Keypoint -> option number) (pose : Pose) : Pose :=
  mkPose (map (fun kp => mkKeypoint (x kp) (y kp) (f kp) (name kp))
              (keypoints pose)).

(** ** The 2D rendering context

    The browser's [CanvasRenderingContext2D], as far as the component drives
    it: the current transformation matrix and styles, the stack of saved
    drawing states, the current path, and the log of what was painted on the
    bitmap since it was last reset. *)

(** The matrix [[a c e] [b d f] [0 0 1]]. *)
Record Matrix : Type := mkMatrix {
  ma : number; mb : number; mc : number; md : number;
  me : number; mf : number
}.

Definition identity : Matrix :=
  mkMatrix 1%float 0%float 0%float 1%float 0%float 0%float.

(** A piece of the current path, with the transform in force when it was
    added. *)
Inductive PathSeg : Type :=
| MoveTo (m : Matrix) (px py : number)
| LineTo (m : Matrix) (px py : number)
| Arc (m : Matrix) (cx cy radius startAngle endAngle : number).

(** One operation on the bitmap. *)
Inductive Paint : Type :=
| Filled (path : list PathSeg) (style : string)
| Stroked (path : list PathSeg) (style : string) (width : number)
| Cleared (m : Matrix) (rx ry rw rh : number).

(** What [save] pushes and [restore] pops. *)
Record DrawState : Type := mkDrawState {
  transform : Matrix;
  fillStyle : string;
  strokeStyle : string;
  lineWidth : number
}.

Record Context2D : Type := mkContext2D {
  current : DrawState;
  saved : list DrawState;
  path : list PathSeg;
  painted : list Paint
}.

Definition defaultDrawState : DrawState :=
  mkDrawState identity "#000000" "#000000" 1%float.

(** A context in its default state, over a blank bitmap. *)
Definition defaultContext : Context2D :=
  mkContext2D defaultDrawState [] [] [].

Definition withCurrent (s : DrawState) (ctx : Context2D) : Context2D :=
  mkContext2D s (saved ctx) (path ctx) (painted ctx).

Definition withPath (p : list PathSeg) (ctx : Context2D) : Context2D :=
  mkContext2D (current ctx) (saved ctx) p (painted ctx).

Definition paint (op : Paint) (ctx : Context2D) : Context2D :=
  mkContext2D (current ctx) (saved ctx) (path ctx) (painted ctx ++ [op]).

(** [ctx.save()] *)
Definition save (ctx : Context2D) : Context2D :=
  mkContext2D (current ctx) (current ctx :: saved ctx) (path ctx) (painted ctx).

(** [ctx.restore()]: does nothing when no state is saved. *)
Definition restore (ctx : Context2D) : Context2D :=
  match saved ctx with
  | s :: rest => mkContext2D s rest (path ctx) (painted ctx)
  | [] => ctx
  end.

Definition withTransform (m : Matrix) (s : DrawState) : DrawState :=
  mkDrawState m (fillStyle s) (strokeStyle s) (lineWidth s).

(** [ctx.scale(sx, sy)]: the current matrix times the scaling. *)
Definition scale (sx sy : number) (ctx : Context2D) : Context2D :=
  let m := transform (current ctx) in
  withCurrent
    (withTransform
       (mkMatrix (times (ma m) sx) (times (mb m) sx)
                 (times (mc m) sy) (times (md m) sy) (me m) (mf m))
       (current ctx))
    ctx.

(** [ctx.translate(tx, ty)]: the current matrix times the translation. *)
Definition translate (tx ty : number) (ctx : Context2D) : Context2D :=
  let m := transform (current ctx) in
  withCurrent
    (withTransform
       (mkMatrix (ma m) (mb m) (mc m) (md m)
                 (plus (plus (times (ma m) tx) (times (mc m) ty)) (me m))
                 (plus (plus (times (mb m) tx) (times (md m) ty)) (mf m)))
       (current ctx))
    ctx.

(** [ctx.fillStyle = c], [ctx.strokeStyle = c], [ctx.lineWidth = w] *)
Definition setFillStyle (c : string) (ctx : Context2D) : Context2D :=
  let s := current ctx in
  withCurrent (mkDrawState (transform s) c (strokeStyle s) (lineWidth s)) ctx.

Definition setStrokeStyle (c : string) (ctx : Context2D) : Context2D :=
  let s := current ctx in
  withCurrent (mkDrawState (transform s) (fillStyle s) c (lineWidth s)) ctx.

Definition setLineWidth (w : number) (ctx : Context2D) : Context2D :=
  let s := current ctx in
  withCurrent (mkDrawState (transform s) (fillStyle s) (strokeStyle s) w) ctx.

(** [ctx.beginPath()], [ctx.moveTo], [ctx.lineTo], [ctx.arc] *)
Definition beginPath (ctx : Context2D) : Context2D := withPath [] ctx.

Definition moveTo (px py : number) (ctx : Context2D) : Context2D :=
  withPath (path ctx ++ [MoveTo (transform (current ctx)) px py]) ctx.

Definition lineTo (px py : number) (ctx : Context2D) : Context2D :=
  withPath (path ctx ++ [LineTo (transform (current ctx)) px py]) ctx.

Definition arc (cx cy radius startAngle endAngle : number) (ctx : Context2D)
  : Context2D :=
  withPath
    (path ctx ++
     [Arc (transform (current ctx)) cx cy radius startAngle endAngle])
    ctx.

(** [ctx.fill()], [ctx.stroke()], [ctx.clearRect] *)
Definition fill (ctx : Context2D) : Context2D :=
  paint (Filled (path ctx) (fillStyle (current ctx))) ctx.

Definition stroke (ctx : Context2D) : Context2D :=
  paint (Stroked (path ctx) (strokeStyle (current ctx))
                 (lineWidth (current ctx))) ctx.

Definition clearRect (rx ry rw rh : number) (ctx : Context2D) : Context2D :=
  paint (Cleared (transform (current ctx)) rx ry rw rh) ctx.

(** The canvas element: its bitmap dimensions and its one 2D context. *)
Record Canvas : Type := mkCanvas {
  width : N;
  height : N;
  context : Context2D
}.

(** [canvas.width = w] and [canvas.height = h]: setting a dimension resets
    the rendering context to its default state and blanks the bitmap. *)
Definition setWidth (w : N) (canvas : Canvas) : Canvas :=
  mkCanvas w (height canvas) defaultContext.

Definition setHeight (h : N) (canvas : Canvas) : Canvas :=
  mkCanvas (width canvas) h defaultContext.

Definition withContext (ctx : Context2D) (canvas : Canvas) : Canvas :=
  mkCanvas (width canvas) (height canvas) ctx.

(** The video element, as far as a tick reads it. *)
Record Video : Type := mkVideo {
  readyState : N;
  videoWidth : N;
  videoHeight : N
}.

(** ** Drawing a pose *)

(** The local helper [drawLine]. *)
Definition drawLine (ctx : Context2D) (from to : Keypoint) (color : string)
  : Context2D :=
  let ctx := beginPath ctx in
  let ctx := moveTo (x from) (y from) ctx in
  let ctx := lineTo (x to) (y to) ctx in
  let ctx := setStrokeStyle color ctx in
  let ctx := setLineWidth 2%float ctx in
  stroke ctx.

(** [kp.score !== undefined && kp.score > 0.5] *)
Definition confident (kp : Keypoint) : bool :=
  match score kp with
  | Some s => gt s 0.5%float
  | None => false
  end.

(** The body of [pose.keypoints.forEach(keypoint => ...)]. *)
Definition drawKeypoint (color : string) (ctx : Context2D) (keypoint : Keypoint)
  : Context2D :=
  if confident keypoint then
    let ctx := beginPath ctx in
    let ctx :=
      arc (x keypoint) (y keypoint) 5%float 0%float (times 2%float Math_PI) ctx in
    let ctx := setFillStyle color ctx in
    fill ctx
  else ctx.

Definition keypointPairs : list (string * string) :=
  [ ("left_shoulder", "right_shoulder");
    ("left_hip", "right_hip");
    ("left_shoulder", "left_elbow");
    ("left_elbow", "left_wrist");
    ("right_shoulder", "right_elbow");
    ("right_elbow", "right_wrist");
    ("left_hip", "left_knee");
    ("left_knee", "left_ankle");
    ("right_hip", "right_knee");
    ("right_knee", "right_ankle") ].

(** The body of [keypointPairs.forEach(([fromName, toName]) => ...)]. *)
Definition drawPair (color : string) (pose : Pose) (ctx : Context2D)
    (pair : string * string) : Context2D :=
  let (fromName, toName) := pair in
  let fromKeypoint := findByName fromName pose in
  let toKeypoint := findByName toName pose in
  match fromKeypoint, toKeypoint with
  | Some fromKeypoint, Some toKeypoint =>
      if confident fromKeypoint && confident toKeypoint
      then drawLine ctx fromKeypoint toKeypoint color
      else ctx
  | _, _ => ctx
  end.

(** The colour a pose is drawn in. *)
Definition colorOf (pose : Pose) : string :=
  let isPerfect := isPerfectAngle pose in
  if isPerfect then "green" else "red".

(** The body of [poses.forEach(pose => ...)]. *)
Definition drawPose (ctx : Context2D) (pose : Pose) : Context2D :=
  let color := colorOf pose in
  let ctx := fold_left (drawKeypoint color) (keypoints pose) ctx in
  fold_left (drawPair color pose) keypointPairs ctx.

(** ** One tick of the frame loop *)

(** What [await detector.estimatePoses(video)] comes back with. *)
Inductive Estimate : Type :=
| Poses (poses : list Pose)
| EstimateThrows.

(** How a call of [detectPose] ends: it asked for the next animation frame,
    it returned without asking, or its promise was rejected. *)
Inductive TickEnd : Type :=
| NextFrameRequested
| NothingRequested
| TickRejected.

(** [HTMLMediaElement.HAVE_ENOUGH_DATA] *)
Definition HAVE_ENOUGH_DATA : N := 4.

Definition detectPose (video : Video) (estimate : Estimate) (canvas : Canvas)
  : Canvas * TickEnd :=
  if N.eqb (readyState video) HAVE_ENOUGH_DATA then
    let canvas := setWidth (videoWidth video) canvas in
    let canvas := setHeight (videoHeight video) canvas in
    let ctx := context canvas in
    let ctx := save ctx in
    let ctx := scale (-1)%float 1%float ctx in
    let ctx := translate (neg (ofN (width canvas))) 0%float ctx in
    match estimate with
    | EstimateThrows => (withContext ctx canvas, TickRejected)
    | Poses poses =>
        let ctx :=
          clearRect 0%float 0%float (ofN (width canvas)) (ofN (height canvas))
                    ctx in
        let ctx := fold_left drawPose poses ctx in
        let ctx := restore ctx in
        (withContext ctx canvas, NextFrameRequested)
    end
  else (canvas, NothingRequested).

(** What one animation frame brings: the video's state when the callback
    runs and the estimator's answer, should it be asked. *)
Definition Frame : Type := (Video * Estimate)%type.

(** The loop [detectPose(); ... requestAnimationFrame(detectPose)]: the
    canvas at the start of each tick that runs, in order, and the canvas the
    last of them leaves. A tick runs when it is the first or when the tick
    before it requested a frame. *)
Fixpoint runLoop (frames : list Frame) (canvas : Canvas)
  : list Canvas * Canvas :=
  match frames with
  | [] => ([], canvas)
  | (video, estimate) :: rest =>
      match detectPose video estimate canvas with
      | (canvas', NextFrameRequested) =>
          let (starts, final) := runLoop rest canvas' in
          (canvas :: starts, final)
      | (canvas', _) => ([canvas], canvas')
      end
  end.

(** ** Initialisation: permission gate, model load, capture

    The asynchronous code is a tree of calls: each node is one call to the
    browser, to the model library or to the component's own state setter,
    and the continuation receives what the call gave back. A call that
    returns a promise has three outcomes: see [Outcome]. *)

(** An error value, as far as [handleError] reads it: its [name], when it
    has one that is a string. *)
Record ErrorValue : Type := mkErrorValue {
  error_name : option string
}.

(** [new Error(msg)]: its [name] is ["Error"]. *)
Definition newError : ErrorValue := mkErrorValue (Some "Error").

(** The outcome of evaluating a call that returns a promise: the promise
    resolves, the promise is rejected, or the call expression itself throws
    before there is any promise, as [navigator.permissions.query(...)] and
    [navigator.mediaDevices.getUserMedia(...)] do where
    [navigator.permissions] or [navigator.mediaDevices] is undefined. *)
Inductive Outcome (A : Type) : Type :=
| Resolved (a : A)
| Rejected (err : ErrorValue)
| Threw (err : ErrorValue).

Arguments Resolved {A} a.
Arguments Rejected {A} err.
Arguments Threw {A} err.

(** [PermissionStatus.state] *)
Inductive PermissionState : Type := granted | prompt | denied.

Definition Track : Type := nat.
(** A media stream, as the list [stream.getTracks()] gives. *)
Definition MediaStream : Type := list Track.
Definition Detector : Type := nat.

(** The calls the initialisation code makes, indexed by what they return:
    - [permissions_query]: the expression
      [navigator.permissions.query({name: 'camera'})] and the promise it
      returns;
    - [getUserMedia]: [navigator.mediaDevices.getUserMedia({video: true})];
    - [track_stop t]: [track.stop()];
    - [tf_setBackend], [tf_ready], [createDetector]: the three awaited calls
      of [loadModel];
    - [refs_current]: whether [videoRef.current && canvasRef.current] holds;
    - [canvas_getContext]: whether [canvas.getContext('2d')] gave a context;
    - [set_srcObject], [video_play]: [video.srcObject = stream] and
      [video.play()];
    - [start_detectPose]: the first call [detectPose()], which starts the
      frame loop ([runLoop]);
    - [setError]: the state setter of [useState<string | null>(null)];
    - [console_error], [console_log];
    - [uncaught err]: the exception [err] leaves the effect callback, no
      handler of the component having caught it. *)
Inductive Call : Type -> Type :=
| permissions_query : Call (Outcome PermissionState)
| getUserMedia : Call (Outcome MediaStream)
| track_stop (t : Track) : Call unit
| tf_setBackend : Call (Outcome bool)
| tf_ready : Call (Outcome unit)
| createDetector : Call (Outcome Detector)
| refs_current : Call bool
| canvas_getContext : Call bool
| set_srcObject (stream : MediaStream) : Call unit
| video_play : Call (Outcome unit)
| start_detectPose (detector : Detector) : Call unit
| setError (e : option string) : Call unit
| console_error (msg : string) (err : ErrorValue) : Call unit
| console_log (msg : string) : Call unit
| uncaught (err : ErrorValue) : Call unit.

(** A program: it returns, or makes a call and continues with the answer. *)
Inductive Prog (A : Type) : Type :=
| Ret (a : A)
| Do {X : Type} (c : Call X) (k : X -> Prog A).

Arguments Ret {A} a.
Arguments Do {A X} c k.

Fixpoint bind {A B : Type} (p : Prog A) (f : A -> Prog B) : Prog B :=
  match p with
  | Ret a => f a
  | Do c k => Do c (fun r => bind (k r) f)
  end.

Definition call {X : Type} (c : Call X) : Prog X := Do c Ret.

Declare Scope prog_scope.
Delimit Scope prog_scope with prog.
Notation "r <- p ;; q" := (bind p (fun r => q))
  (at level 100, p at next level, right associativity) : prog_scope.
Notation "p ;; q" := (bind p (fun _ => q))
  (at level 100, right associativity) : prog_scope.
Local Open Scope prog_scope.

(** The message [handleError] chooses for an error. *)
Definition errorMessage (error : ErrorValue) : string :=
  match error_name error with
  | Some n =>
      if String.eqb n "NotAllowedError" then
        "Camera access was denied. Please allow camera access and try again."
      else if String.eqb n "NotFoundError" then
        "No camera device found. Please ensure a camera is connected and try again."
      else if String.eqb n "AbortError" then
        "The fetching process for the media resource was aborted. Please try again."
      else if String.eqb n "NotReadableError" then
        "The media device is not readable. Please check your camera and try again."
      else if String.eqb n "OverconstrainedError" then
        "The constraints specified are not supported by the device. Please check your camera settings and try again."
      else if String.eqb n "SecurityError" then
        "Security error while accessing the camera. Please check your browser settings and try again."
      else "An error occurred while accessing the camera."
  | None => "An error occurred while accessing the camera."
  end.

Definition handleError (error : ErrorValue) : Prog unit :=
  call (setError (Some (errorMessage error))) ;;
  call (console_error "Error accessing the webcam:" error).

Definition startVideoStream (detector : Detector) : Prog unit :=
  mounted <- call refs_current ;;
  if (mounted : bool) then
    ctx <- call canvas_getContext ;;
    if (ctx : bool) then
      call (console_log "Attempting to access user media...") ;;
      media <- call getUserMedia ;;
      match media with
      | Resolved stream =>
          call (set_srcObject stream) ;;
          played <- call video_play ;;
          match played with
          | Resolved _ => call (start_detectPose detector)
          | Rejected error | Threw error => handleError error
          end
      | Rejected error | Threw error => handleError error
      end
    else handleError newError
  else Ret tt.

(** The [catch] of [loadModel]. *)
Definition loadModelFailed (error : ErrorValue) : Prog unit :=
  call (setError (Some "Error loading the MoveNet model.")) ;;
  call (console_error "Error loading the MoveNet model:" error).

Definition loadModel : Prog unit :=
  backend <- call tf_setBackend ;;
  match backend with
  | Resolved _ =>
      ready <- call tf_ready ;;
      match ready with
      | Resolved _ =>
          created <- call createDetector ;;
          match created with
          | Resolved detector => startVideoStream detector
          | Rejected error | Threw error => loadModelFailed error
          end
      | Rejected error | Threw error => loadModelFailed error
      end
  | Rejected error | Threw error => loadModelFailed error
  end.

(** [stream.getTracks().forEach(track => track.stop())] *)
Fixpoint stopTracks (stream : MediaStream) : Prog unit :=
  match stream with
  | [] => Ret tt
  | track :: rest => call (track_stop track) ;; stopTracks rest
  end.

Definition deniedMessage : string :=
  "Camera access is denied. Please enable camera permissions in your browser settings.".

Definition unableMessage : string :=
  "Unable to check camera permissions. Please try again.".

(** The effect run when the component mounts. The query expression stands
    outside any [try], and [.catch] is attached to the promise it returns:
    when the expression throws there is no promise, and the exception
    leaves the effect. An exception thrown inside the [then] callback (by
    the [getUserMedia] expression) rejects the chained promise and reaches
    [.catch]. *)
Definition useEffect : Prog unit :=
  status <- call permissions_query ;;
  match status with
  | Resolved granted => loadModel
  | Resolved prompt =>
      media <- call getUserMedia ;;
      match media with
      | Resolved stream => stopTracks stream ;; loadModel
      | Rejected err => handleError err
      | Threw err =>
          call (console_error "Error checking camera permissions:" err) ;;
          call (setError (Some unableMessage))
      end
  | Resolved denied => call (setError (Some deniedMessage))
  | Rejected err =>
      call (console_error "Error checking camera permissions:" err) ;;
      call (setError (Some unableMessage))
  | Threw err => call (uncaught err)
  end.

Definition retry : Prog unit :=
  call (setError None) ;;
  loadModel.

(** *** Running a program against a world *)

(** One call that was made. *)
Inductive Event : Type :=
| Ev {X : Type} (c : Call X).

(** The component's [error] state after a run: what the last [setError]
    stored, or what it was before. *)
Definition errorStep (error : option string) (ev : Event) : option string :=
  match ev with
  | Ev c =>
      match c with
      | setError e => e
      | _ => error
      end
  end.

Definition errorAfter (error : option string) (trace : list Event)
  : option string :=
  fold_left errorStep trace error.

(** The stages of initialisation a call belongs to. *)
Inductive Stage : Type :=
| PermissionCheck | Capture | ModelLoad | LoopStart.

Definition stageOf (ev : Event) : option Stage :=
  match ev with
  | Ev c =>
      match c with
      | permissions_query => Some PermissionCheck
      | getUserMedia => Some Capture
      | set_srcObject _ => Some Capture
      | video_play => Some Capture
      | tf_setBackend => Some ModelLoad
      | tf_ready => Some ModelLoad
      | createDetector => Some ModelLoad
      | start_detectPose _ => Some LoopStart
      | _ => None
      end
  end.

Definition Stage_eqb (s t : Stage) : bool :=
  match s, t with
  | PermissionCheck, PermissionCheck => true
  | Capture, Capture => true
  | ModelLoad, ModelLoad => true
  | LoopStart, LoopStart => true
  | _, _ => false
  end.

(** A list of stages with runs of one stage merged. *)
Fixpoint merged (stages : list Stage) : list Stage :=
  match stages with
  | [] => []
  | s :: rest =>
      match merged rest with
      | t :: more => if Stage_eqb s t then t :: more else s :: t :: more
      | [] => [s]
      end
  end.

(** The stages a trace goes through, in order. *)
Definition stagesOf (trace : list Event) : list Stage :=
  merged (flat_map (fun ev => match stageOf ev with
                              | Some s => [s]
                              | None => []
                              end) trace).

Definition isPermissionQuery (ev : Event) : bool :=
  match stageOf ev with
  | Some PermissionCheck => true
  | _ => false
  end.

Section World.

(** The world: a state and its answer to each call. *)
Variable W : Type.
Variable respond : forall X : Type, Call X -> W -> X * W.

Fixpoint run {A : Type} (p : Prog A) (w : W) : list Event * W * A :=
  match p with
  | Ret a => ([], w, a)
  | Do c k =>
      let (r, w') := respond _ c w in
      let '(trace, w'', a) := run (k r) w' in
      (Ev c :: trace, w'', a)
  end.

Definition traceOf {A : Type} (p : Prog A) (w : W) : list Event :=
  fst (fst (run p w)).

Definition worldAfter {A : Type} (p : Prog A) (w : W) : W :=
  snd (fst (run p w)).

End World.

Arguments run {W} respond {A} p w.
Arguments traceOf {W} respond {A} p w.
Arguments worldAfter {W} respond {A} p w.

(** ** What the component renders *)

Definition Style : Type := list (string * string).

Inductive Handler : Type :=
| onClick (action : Prog unit).

#[local] Unset Elimination Schemes.
Inductive Node : Type :=
| div (style : Style) (children : list Node)
| Typography (variant color : string) (text : string)
| Button (variant color : string) (handler : Handler) (label : string)
| video (style : Style)
| canvas (style : Style).
#[local] Set Elimination Schemes.

(** JavaScript truthiness of [error : string | null]. *)
Definition truthy (error : option string) : bool :=
  match error with
  | Some s => negb (String.eqb s "")
  | None => false
  end.

Definition render (error : option string) : Node :=
  div [("position", "relative"); ("textAlign", "center")]
    ((match error with
      | Some text =>
          if truthy error then
            [div []
               [Typography "h6" "error" text;
                Button "contained" "primary" (onClick retry) "Retry"]]
          else []
      | None => []
      end) ++
     [video [("width", "100%"); ("maxWidth", "800px");
             ("transform", "scaleX(-1)");
             ("display", if truthy error then "none" else "block")];
      canvas [("position", "absolute"); ("top", "0"); ("left", "0")]]).

(** The value of a style property, when the style sets it. *)
Fixpoint styleOf (property : string) (style : Style) : option string :=
  match style with
  | [] => None
  | (p, v) :: rest => if String.eqb p property then Some v else styleOf property rest
  end.

(** An element is hidden when its style sets [display: none]. *)
Definition hidden (style : Style) : bool :=
  match styleOf "display" style with
  | Some v => String.eqb v "none"
  | None => false
  end.

Definition childrenOf (n : Node) : list Node :=
  match n with
  | div _ children => children
  | _ => []
  end.

(** The styles of the video elements and of the canvas elements among the
    root's children. *)
Definition videoStyles (root : Node) : list Style :=
  flat_map (fun n => match n with video s => [s] | _ => [] end)
           (childrenOf root).

Definition canvasStyles (root : Node) : list Style :=
  flat_map (fun n => match n with canvas s => [s] | _ => [] end)
           (childrenOf root).

(** The banner: the text shown and the labels of its buttons. *)
Definition bannerOf (root : Node) : list (list string * list string) :=
  flat_map (fun n => match n with
                     | div _ inner =>
                         [(flat_map (fun m => match m with
                                              | Typography _ _ t => [t]
                                              | _ => []
                                              end) inner,
                           flat_map (fun m => match m with
                                              | Button _ _ _ l => [l]
                                              | _ => []
                                              end) inner)]
                     | _ => []
                     end)
           (childrenOf root).

(** ** Vocabulary of the statements *)

(** The circle painted for a keypoint, under transform [m]. *)
Definition dot (m : Matrix) (color : string) (kp : Keypoint) : Paint :=
  Filled [Arc m (x kp) (y kp) 5%float 0%float (times 2%float Math_PI)] color.

(** The segment painted for an edge, under transform [m]. *)
Definition segment (m : Matrix) (color : string) (from to : Keypoint) : Paint :=
  Stroked [MoveTo m (x from) (y from); LineTo m (x to) (y to)] color 2%float.

(** The segments the pair pass paints for one configured pair. *)
Definition pairPaints (m : Matrix) (color : string) (pose : Pose)
    (pair : string * string) : list Paint :=
  match findByName (fst pair) pose, findByName (snd pair) pose with
  | Some from, Some to =>
      if confident from && confident to then [segment m color from to] else []
  | _, _ => []
  end.

Definition isStroked (op : Paint) : Prop :=
  match op with
  | Stroked _ _ _ => True
  | _ => False
  end.

(** A keypoint with its score replaced. *)
Definition setScore (s : option number) (kp : Keypoint) : Keypoint :=
  mkKeypoint (x kp) (y kp) s (name kp).

(** The same saved stack and the same current transform. *)
Definition sameFrame (ctx ctx' : Context2D) : Prop :=
  saved ctx' = saved ctx /\
  transform (current ctx') = transform (current ctx).

(** The mirror a tick installs on a canvas of width [w]. *)
Definition mirror (w : N) : Matrix :=
  transform (current (translate (neg (ofN w)) 0%float
                        (scale (-1)%float 1%float defaultContext))).

(** *** Sample poses *)

(** The double that the literal [0.9] denotes. *)
Definition nineTenths : number := 0x1.ccccccccccccdp-1%float.

Definition keypointAt (n : string) (px py s : number) : Keypoint :=
  mkKeypoint px py (Some s) (Some n).

(** Shoulders at y = 100 and 105, hips at y = 200 and 215, a left elbow;
    every score is [s]. *)
Definition levelPose (s : number) : Pose :=
  mkPose [ keypointAt "left_shoulder" 300%float 100%float s;
           keypointAt "right_shoulder" 200%float 105%float s;
           keypointAt "left_elbow" 320%float 150%float s;
           keypointAt "left_hip" 290%float 200%float s;
           keypointAt "right_hip" 210%float 215%float s ].

(** [levelPose nineTenths] with the left shoulder's score replaced. *)
Definition shoulderAt (s : option number) : Pose :=
  mkPose [ setScore s (keypointAt "left_shoulder" 300%float 100%float nineTenths);
           keypointAt "right_shoulder" 200%float 105%float nineTenths;
           keypointAt "left_elbow" 320%float 150%float nineTenths;
           keypointAt "left_hip" 290%float 200%float nineTenths;
           keypointAt "right_hip" 210%float 215%float nineTenths ].

(** [levelPose nineTenths] without its left shoulder. *)
Definition noLeftShoulder : Pose :=
  mkPose [ keypointAt "right_shoulder" 200%float 105%float nineTenths;
           keypointAt "left_elbow" 320%float 150%float nineTenths;
           keypointAt "left_hip" 290%float 200%float nineTenths;
           keypointAt "right_hip" 210%float 215%float nineTenths ].

(** *** Sample worlds *)

(** A world that answers each kind of call the same way every time. *)
Record Answers : Type := mkAnswers {
  permission : Outcome PermissionState;
  media : Outcome MediaStream;
  backend : Outcome bool;
  ready : Outcome unit;
  detector : Outcome Detector;
  mounted : bool;
  context2d : bool;
  playing : Outcome unit
}.

Definition answer (a : Answers) (X : Type) (c : Call X) (w : unit) : X * unit :=
  (match c in Call T return T with
   | permissions_query => permission a
   | getUserMedia => media a
   | track_stop _ => tt
   | tf_setBackend => backend a
   | tf_ready => ready a
   | createDetector => detector a
   | refs_current => mounted a
   | canvas_getContext => context2d a
   | set_srcObject _ => tt
   | video_play => playing a
   | start_detectPose _ => tt
   | setError _ => tt
   | console_error _ _ => tt
   | console_log _ => tt
   | uncaught _ => tt
   end, w).

(** Every call succeeds; the permission is the given one. *)
Definition allGood (p : Outcome PermissionState) : Answers :=
  mkAnswers p (Resolved [7%nat]) (Resolved true) (Resolved tt)
            (Resolved 1%nat) true true (Resolved tt).

(** A fresh 300 by 150 canvas and two video states. *)
Definition freshCanvas : Canvas := mkCanvas 300 150 defaultContext.
Definition readyVideo : Video := mkVideo 4 640 480.
Definition bufferingVideo : Video := mkVideo 3 640 480.

(** The six capture failures [handleError] tells apart. *)
Definition captureFailures : list string :=
  [ "NotAllowedError"; "NotFoundError"; "AbortError"; "NotReadableError";
    "OverconstrainedError"; "SecurityError" ].

Definition genericMessage : string :=
  "An error occurred while accessing the camera.".

(** What the verdict can see of a collection: names and y-coordinates. *)
Definition outline (kps : list Keypoint) : list (option string * number) :=
  map (fun k => (name k, y k)) kps.

(** The y-coordinate of the first keypoint of a name. *)
Definition yOf (n : string) (pose : Pose) : option number :=
  option_map y (findByName n pose).

(** The reading of "suppresses that edge only": going from [before] to
    [after] suppresses [pair] and leaves every other configured pair
    painting what it painted. *)
Definition suppressesOnly (before after : Pose) (pair : string * string)
  : Prop :=
  forall color ctx,
    drawPair color after ctx pair = ctx /\
    forall other, In other keypointPairs -> other <> pair ->
      drawPair color after ctx other = drawPair color before ctx other.

(** The context a tick that draws works on between its [save] and its
    [restore], starting from [ctx] on a canvas [w] wide and [h] high. *)
Definition mirrored (w h : N) (poses : list Pose) (ctx : Context2D)
  : Context2D :=
  fold_left drawPose poses
    (clearRect 0%float 0%float (ofN w) (ofN h)
       (translate (neg (ofN w)) 0%float
          (scale (-1)%float 1%float (save ctx)))).

Definition transformOf (canvas : Canvas) : Matrix :=
  transform (current (context canvas)).

(** The handlers of the banner's buttons. *)
Definition handlersOf (root : Node) : list Handler :=
  flat_map (fun n => match n with
                     | div _ inner =>
                         flat_map (fun m => match m with
                                            | Button _ _ h _ => [h]
                                            | _ => []
                                            end) inner
                     | _ => []
                     end)
           (childrenOf root).

(** Some element of these styles is rendered without [display: none]. *)
Definition shown (styles : list Style) : bool :=
  existsb (fun s => negb (hidden s)) styles.

(** An error value of a given name. *)
Definition named (n : string) : ErrorValue := mkErrorValue (Some n).

(** The world in which the permission query resolves to [denied]. *)
Definition deniedWorld : Answers := allGood (Resolved denied).

(** What the component shows once the mount effect has run in a world. *)
Definition viewAfterMount (a : Answers) : Node :=
  render (errorAfter None (traceOf (answer a) useEffect tt)).

(** [levelPose nineTenths] with the right hip 30 pixels below the left. *)
Definition tiltedPose : Pose :=
  mkPose [ keypointAt "left_shoulder" 300%float 100%float nineTenths;
           keypointAt "right_shoulder" 200%float 105%float nineTenths;
           keypointAt "left_hip" 290%float 200%float nineTenths;
           keypointAt "right_hip" 210%float 230%float nineTenths ].

(** ** Vocabulary of the further properties *)

(** Everything the per-pose callback paints for one pose under transform
    [m]: its dots, then its segments. *)
Definition posePaints (m : Matrix) (pose : Pose) : list Paint :=
  map (dot m (colorOf pose)) (filter confident (keypoints pose)) ++
  flat_map (pairPaints m (colorOf pose) pose) keypointPairs.

(** The style a paint operation was made with. *)
Definition paintStyle (op : Paint) : option string :=
  match op with
  | Filled _ s => Some s
  | Stroked _ s _ => Some s
  | Cleared _ _ _ _ _ => None
  end.

(** A frame on which the tick draws and asks for the next one: the video
    has enough data and the estimator answers. *)
Definition drawable (fr : Frame) : bool :=
  N.eqb (readyState (fst fr)) HAVE_ENOUGH_DATA &&
  match snd fr with
  | Poses _ => true
  | EstimateThrows => false
  end.

(** A pose with two more keypoints after those of [levelPose]: a second
    left hip and a second right hip, far from level. *)
Definition crowdedPose : Pose :=
  mkPose (keypoints (levelPose nineTenths) ++
          [ keypointAt "left_hip" 290%float 10%float nineTenths;
            keypointAt "right_hip" 210%float 400%float nineTenths ]).

(** Kinds of events. *)
Definition isTrackStop (ev : Event) : bool :=
  match ev with
  | Ev c => match c with track_stop _ => true | _ => false end
  end.

Definition isSetError (ev : Event) : bool :=
  match ev with
  | Ev c => match c with setError _ => true | _ => false end
  end.

Definition isGetUserMedia (ev : Event) : bool :=
  match ev with
  | Ev c => match c with getUserMedia => true | _ => false end
  end.

Definition isCreateDetector (ev : Event) : bool :=
  match ev with
  | Ev c => match c with createDetector => true | _ => false end
  end.

Definition isLoopStart (ev : Event) : bool :=
  match ev with
  | Ev c => match c with start_detectPose _ => true | _ => false end
  end.

(** The text [loadModel] stores when the model cannot be loaded. *)
Definition modelMessage : string := "Error loading the MoveNet model.".

(** Every text the component can store as its error. *)
Definition allMessages : list string :=
  genericMessage :: map errorMessage (map named captureFailures) ++
  [modelMessage; deniedMessage; unableMessage].

(** A world in which the camera refuses with the given error and all else
    succeeds. *)
Definition cameraFails (err : ErrorValue) : Answers :=
  mkAnswers (Resolved granted) (Rejected err) (Resolved true) (Resolved tt)
            (Resolved 1%nat) true true (Resolved tt).

(** The level pose with the left hip's y-coordinate not a number. *)
Definition brokenPose : Pose :=
  mkPose [ keypointAt "left_shoulder" 300%float 100%float nineTenths;
           keypointAt "right_shoulder" 200%float 105%float nineTenths;
           keypointAt "left_hip" 290%float PrimFloat.nan nineTenths;
           keypointAt "right_hip" 210%float 215%float nineTenths ].

(** A browser without the Permissions API: [navigator.permissions] is
    undefined, so the query expression throws a TypeError. *)
Definition noPermissionsApi : Answers :=
  allGood (Threw (named "TypeError")).

(** A page without [navigator.mediaDevices] whose permission state is
    [prompt]: the [getUserMedia] expression throws a TypeError. *)
Definition noMediaDevices : Answers :=
  mkAnswers (Resolved prompt) (Threw (named "TypeError")) (Resolved true)
            (Resolved tt) (Resolved 1%nat) true true (Resolved tt).

(** * Properties *)

(** ** Number comparisons *)

(** The comparison of two floats read backwards is the opposite one. *)
Lemma SFcompare_swap (u v : spec_float) :
  SFcompare v u = option_map CompOpp (SFcompare u v).
Proof.
  destruct u as [su | su | | su mu eu], v as [sv | sv | | sv mv ev];
    simpl; try reflexivity;
    try (destruct su; reflexivity); try (destruct sv; reflexivity);
    try (destruct su, sv; reflexivity).
  destruct su, sv; simpl; try reflexivity;
    rewrite (Z.compare_antisym eu ev);
    destruct (eu ?= ev)%Z eqn:E; simpl; try reflexivity;
    rewrite (Pos.compare_cont_antisym mu mv Eq); simpl;
    try rewrite CompOpp_involutive; reflexivity.
Qed.

(** [s <= t] excludes [s > t]. *)
Lemma le_not_gt (s t : number) : le s t = true -> gt s t = false.
Proof.
  unfold le, gt. rewrite leb_spec, ltb_spec. unfold SFleb, SFltb.
  rewrite (SFcompare_swap (Prim2SF s) (Prim2SF t)).
  destruct (SFcompare (Prim2SF s) (Prim2SF t)) as [[ | | ] | ];
    simpl; congruence.
Qed.

(** A comparison with NaN never holds. *)
Lemma gt_nan_l (t : number) : gt PrimFloat.nan t = false.
Proof.
  unfold gt. rewrite ltb_spec.
  unfold SFltb. destruct (Prim2SF t); reflexivity.
Qed.

(** ** Lookup by name *)

Lemma nameIs_true (n : string) (kp : Keypoint) :
  nameIs n kp = true <-> name kp = Some n.
Proof.
  unfold nameIs. destruct (name kp) as [m | ].
  - rewrite String.eqb_eq. split; congruence.
  - split; discriminate.
Qed.

Lemma findByName_present (n : string) (pose : Pose) :
  present n pose <-> exists kp, findByName n pose = Some kp.
Proof.
  unfold present, findByName. split.
  - intros [kp [Hin Hn]].
    destruct (find (nameIs n) (keypoints pose)) as [k | ] eqn:E.
    + now exists k.
    + apply (find_none _ _ E) in Hin.
      apply nameIs_true in Hn. congruence.
  - intros [kp E]. apply find_some in E. exists kp.
    now rewrite <- nameIs_true.
Qed.

Lemma findByName_absent (n : string) (pose : Pose) :
  ~ present n pose -> findByName n pose = None.
Proof.
  intros H. destruct (findByName n pose) as [kp | ] eqn:E; [ | reflexivity].
  exfalso. apply H. apply findByName_present. now exists kp.
Qed.

Lemma findByName_name (n : string) (pose : Pose) (kp : Keypoint) :
  findByName n pose = Some kp -> In kp (keypoints pose) /\ name kp = Some n.
Proof.
  intros E. apply find_some in E. now rewrite <- nameIs_true.
Qed.

(** The lookup reads names only: scores play no part in it. *)
Lemma findByName_withScores (f : Keypoint -> option number) (n : string)
    (pose : Pose) :
  findByName n (withScores f pose) =
  option_map (fun kp => mkKeypoint (x kp) (y kp) (f kp) (name kp))
             (findByName n pose).
Proof.
  unfold findByName, withScores. simpl.
  induction (keypoints pose) as [ | kp kps IH]; simpl; [reflexivity | ].
  change (nameIs n (mkKeypoint (x kp) (y kp) (f kp) (name kp)))
    with (nameIs n kp).
  destruct (nameIs n kp); [reflexivity | exact IH].
Qed.

(** ** The alignment verdict *)

(** C1: the verdict is true exactly when the four required keypoints are
    found by name and both the shoulders' and the hips' absolute difference
    of y-coordinates is strictly below 20; a keypoint is found exactly when
    one of that name is present, and a single missing one makes the verdict
    false whatever the other three are. *)
Theorem isPerfectAngle_spec (pose : Pose) :
  (isPerfectAngle pose = true <->
     exists ls rs lh rh,
       findByName "left_shoulder" pose = Some ls /\
       findByName "right_shoulder" pose = Some rs /\
       findByName "left_hip" pose = Some lh /\
       findByName "right_hip" pose = Some rh /\
       lt (Math_abs (minus (y ls) (y rs))) 20%float = true /\
       lt (Math_abs (minus (y lh) (y rh))) 20%float = true)
  /\ (forall n, present n pose <-> exists kp, findByName n pose = Some kp)
  /\ (forall n, In n requiredNames -> ~ present n pose ->
        isPerfectAngle pose = false).
Proof.
  split; [ | split].
  - unfold isPerfectAngle. split.
    + destruct (findByName "left_shoulder" pose) as [ls | ]; [ | discriminate].
      destruct (findByName "right_shoulder" pose) as [rs | ]; [ | discriminate].
      destruct (findByName "left_hip" pose) as [lh | ]; [ | discriminate].
      destruct (findByName "right_hip" pose) as [rh | ]; [ | discriminate].
      intros H. apply andb_true_iff in H. destruct H as [Hs Hh].
      exists ls, rs, lh, rh. repeat split; assumption.
    + intros (ls & rs & lh & rh & E1 & E2 & E3 & E4 & Hs & Hh).
      rewrite E1, E2, E3, E4. cbv zeta. now rewrite Hs, Hh.
  - intros n. apply findByName_present.
  - intros n Hn Habs. apply findByName_absent in Habs.
    unfold isPerfectAngle, requiredNames in *. simpl in Hn.
    destruct Hn as [<- | [<- | [<- | [<- | []]]]]; rewrite Habs.
    + reflexivity.
    + destruct (findByName "left_shoulder" pose); reflexivity.
    + destruct (findByName "left_shoulder" pose),
               (findByName "right_shoulder" pose); reflexivity.
    + destruct (findByName "left_shoulder" pose),
               (findByName "right_shoulder" pose),
               (findByName "left_hip" pose); reflexivity.
Qed.

(** ** What the drawing passes paint *)

Lemma sameFrame_refl (ctx : Context2D) : sameFrame ctx ctx.
Proof. split; reflexivity. Qed.

Lemma sameFrame_trans (c1 c2 c3 : Context2D) :
  sameFrame c1 c2 -> sameFrame c2 c3 -> sameFrame c1 c3.
Proof. intros [H1 H2] [H3 H4]. split; congruence. Qed.

Lemma drawKeypoint_painted (color : string) (ctx : Context2D) (k : Keypoint) :
  painted (drawKeypoint color ctx k) =
  painted ctx ++
  (if confident k then [dot (transform (current ctx)) color k] else []).
Proof.
  unfold drawKeypoint. destruct (confident k).
  - reflexivity.
  - now rewrite app_nil_r.
Qed.

Lemma drawKeypoint_frame (color : string) (ctx : Context2D) (k : Keypoint) :
  sameFrame ctx (drawKeypoint color ctx k).
Proof.
  unfold drawKeypoint. destruct (confident k); split; reflexivity.
Qed.

Lemma drawKeypoints_spec (color : string) (kps : list Keypoint) :
  forall ctx,
    sameFrame ctx (fold_left (drawKeypoint color) kps ctx) /\
    painted (fold_left (drawKeypoint color) kps ctx) =
    painted ctx ++ map (dot (transform (current ctx)) color)
                       (filter confident kps).
Proof.
  induction kps as [ | k kps IH]; intros ctx; simpl.
  - split; [apply sameFrame_refl | now rewrite app_nil_r].
  - destruct (IH (drawKeypoint color ctx k)) as [Hf Hp].
    pose proof (drawKeypoint_frame color ctx k) as Hk.
    split; [eapply sameFrame_trans; eassumption | ].
    rewrite Hp, drawKeypoint_painted. destruct Hk as [_ ->].
    destruct (confident k); simpl.
    + now rewrite <- app_assoc.
    + now rewrite app_nil_r.
Qed.

Lemma drawLine_painted (ctx : Context2D) (from to : Keypoint) (color : string) :
  painted (drawLine ctx from to color) =
  painted ctx ++ [segment (transform (current ctx)) color from to].
Proof. reflexivity. Qed.

Lemma drawLine_frame (ctx : Context2D) (from to : Keypoint) (color : string) :
  sameFrame ctx (drawLine ctx from to color).
Proof. split; reflexivity. Qed.

Lemma drawPair_painted (color : string) (pose : Pose) (ctx : Context2D)
    (pair : string * string) :
  painted (drawPair color pose ctx pair) =
  painted ctx ++ pairPaints (transform (current ctx)) color pose pair.
Proof.
  unfold drawPair, pairPaints. destruct pair as [a b]. simpl.
  destruct (findByName a pose) as [fk | ], (findByName b pose) as [tk | ];
    try (now rewrite app_nil_r).
  destruct (confident fk && confident tk).
  - apply drawLine_painted.
  - now rewrite app_nil_r.
Qed.

Lemma drawPair_frame (color : string) (pose : Pose) (ctx : Context2D)
    (pair : string * string) :
  sameFrame ctx (drawPair color pose ctx pair).
Proof.
  unfold drawPair. destruct pair as [a b].
  destruct (findByName a pose) as [fk | ], (findByName b pose) as [tk | ];
    try apply sameFrame_refl.
  destruct (confident fk && confident tk);
    [apply drawLine_frame | apply sameFrame_refl].
Qed.

Lemma drawPairs_spec (color : string) (pose : Pose)
    (pairs : list (string * string)) :
  forall ctx,
    sameFrame ctx (fold_left (drawPair color pose) pairs ctx) /\
    painted (fold_left (drawPair color pose) pairs ctx) =
    painted ctx ++
    flat_map (pairPaints (transform (current ctx)) color pose) pairs.
Proof.
  induction pairs as [ | pr pairs IH]; intros ctx; simpl.
  - split; [apply sameFrame_refl | now rewrite app_nil_r].
  - destruct (IH (drawPair color pose ctx pr)) as [Hf Hp].
    pose proof (drawPair_frame color pose ctx pr) as Hk.
    split; [eapply sameFrame_trans; eassumption | ].
    rewrite Hp, drawPair_painted. destruct Hk as [_ ->].
    now rewrite <- app_assoc.
Qed.

Lemma pairPaints_stroked (m : Matrix) (color : string) (pose : Pose)
    (pairs : list (string * string)) :
  Forall isStroked (flat_map (pairPaints m color pose) pairs).
Proof.
  induction pairs as [ | pr pairs IH]; simpl; [constructor | ].
  apply Forall_app. split; [ | exact IH].
  unfold pairPaints.
  destruct (findByName (fst pr) pose) as [fk | ],
           (findByName (snd pr) pose) as [tk | ]; try constructor.
  destruct (confident fk && confident tk); repeat constructor.
Qed.

(** The per-pose callback: dots of the confident keypoints, then the
    segments of the drawable pairs, all in the pose's colour; the saved
    stack and the transform are as before. *)
Lemma drawPose_spec (ctx : Context2D) (pose : Pose) :
  sameFrame ctx (drawPose ctx pose) /\
  painted (drawPose ctx pose) =
  painted ctx ++
  map (dot (transform (current ctx)) (colorOf pose))
      (filter confident (keypoints pose)) ++
  flat_map (pairPaints (transform (current ctx)) (colorOf pose) pose)
           keypointPairs.
Proof.
  unfold drawPose.
  destruct (drawKeypoints_spec (colorOf pose) (keypoints pose) ctx)
    as [Hf1 Hp1].
  destruct (drawPairs_spec (colorOf pose) pose keypointPairs
              (fold_left (drawKeypoint (colorOf pose)) (keypoints pose) ctx))
    as [Hf2 Hp2].
  split; [eapply sameFrame_trans; eassumption | ].
  cbv zeta. rewrite Hp2, Hp1. destruct Hf1 as [_ ->].
  now rewrite <- app_assoc.
Qed.

Lemma drawPoses_frame (poses : list Pose) :
  forall ctx, sameFrame ctx (fold_left drawPose poses ctx).
Proof.
  induction poses as [ | p poses IH]; intros ctx; simpl.
  - apply sameFrame_refl.
  - eapply sameFrame_trans; [apply (drawPose_spec ctx p) | apply IH].
Qed.

Lemma confident_iff (k : Keypoint) :
  confident k = true <-> exists s, score k = Some s /\ gt s 0.5%float = true.
Proof.
  unfold confident. destruct (score k) as [s | ].
  - split; [intros H; now exists s | intros [s' [E H]]; congruence].
  - split; [discriminate | intros [s' [E _]]; discriminate].
Qed.

(** ** Keypoint dots *)

(** C2: the circles a pose's callback paints are exactly those of the
    keypoints whose score is defined and strictly above 0.5, each of radius
    5 at the keypoint's coordinates in the pose's colour; a score of exactly
    0.5 paints nothing; and a keypoint below the threshold is still in the
    collection the lookups by name read. *)
Theorem dots_iff_confident (ctx : Context2D) (pose : Pose) :
  (exists segments,
     Forall isStroked segments /\
     painted (drawPose ctx pose) =
     painted ctx ++
     map (dot (transform (current ctx)) (colorOf pose))
         (filter confident (keypoints pose)) ++ segments)
  /\ (forall k, In k (filter confident (keypoints pose)) <->
        In k (keypoints pose) /\
        exists s, score k = Some s /\ gt s 0.5%float = true)
  /\ (forall k color c,
        drawKeypoint color c k =
        if confident k then
          paint (dot (transform (current c)) color k)
                (setFillStyle color
                   (withPath [Arc (transform (current c)) (x k) (y k)
                                  5%float 0%float (times 2%float Math_PI)] c))
        else c)
  /\ (forall k, score k = Some 0.5%float -> confident k = false)
  /\ (forall k n, In k (keypoints pose) -> name k = Some n ->
        confident k = false -> exists k', findByName n pose = Some k').
Proof.
  split; [ | split; [ | split; [ | split]]].
  - exists (flat_map (pairPaints (transform (current ctx)) (colorOf pose) pose)
                     keypointPairs).
    split; [apply pairPaints_stroked | apply drawPose_spec].
  - intros k. rewrite filter_In, confident_iff. reflexivity.
  - intros k color c. unfold drawKeypoint.
    destruct (confident k); reflexivity.
  - intros k E. unfold confident. rewrite E. reflexivity.
  - intros k n Hin Hn _. apply findByName_present. now exists k.
Qed.

(** ** Lookups in an edited collection *)

Lemma find_app_split {A : Type} (f : A -> bool) (l1 l2 : list A) :
  find f (l1 ++ l2) =
  match find f l1 with
  | Some a => Some a
  | None => find f l2
  end.
Proof.
  induction l1 as [ | a l1 IH]; simpl; [reflexivity | ].
  destruct (f a); [reflexivity | exact IH].
Qed.

Lemma find_none_iff {A : Type} (f : A -> bool) (l : list A) :
  find f l = None <-> forall a, In a l -> f a = false.
Proof.
  split.
  - intros H a Ha. exact (find_none f l H a Ha).
  - induction l as [ | a l IH]; simpl; intros H; [reflexivity | ].
    rewrite (H a (or_introl eq_refl)). apply IH.
    intros b Hb. apply H. now right.
Qed.

Lemma nameIs_false (n : string) (k : Keypoint) :
  nameIs n k = false <-> name k <> Some n.
Proof.
  rewrite <- nameIs_true. destruct (nameIs n k); split; congruence.
Qed.

(** A keypoint of another name is invisible to the lookup. *)
Lemma findByName_skip (n : string) (l1 l2 : list Keypoint) (k : Keypoint) :
  name k <> Some n ->
  findByName n (mkPose (l1 ++ k :: l2)) = findByName n (mkPose (l1 ++ l2)).
Proof.
  intros H. apply nameIs_false in H. unfold findByName. simpl.
  rewrite !find_app_split. simpl. now rewrite H.
Qed.

(** The first keypoint of a name is the one looked up. *)
Lemma findByName_first (n : string) (l1 l2 : list Keypoint) (k : Keypoint) :
  (forall k', In k' l1 -> name k' <> name k) ->
  name k = Some n ->
  findByName n (mkPose (l1 ++ k :: l2)) = Some k.
Proof.
  intros Hl1 Hn. unfold findByName. simpl. rewrite find_app_split.
  assert (E : find (nameIs n) l1 = None).
  { apply find_none_iff. intros k' Hk'. apply nameIs_false.
    rewrite <- Hn. now apply Hl1. }
  rewrite E. simpl. apply nameIs_true in Hn. now rewrite Hn.
Qed.

Lemma findByName_gone (n : string) (l : list Keypoint) :
  (forall k', In k' l -> name k' <> Some n) ->
  findByName n (mkPose l) = None.
Proof.
  intros H. unfold findByName. simpl. apply find_none_iff.
  intros k' Hk'. apply nameIs_false. now apply H.
Qed.

Lemma drawPair_same_lookups (color : string) (pose pose' : Pose)
    (ctx : Context2D) (c d : string) :
  findByName c pose' = findByName c pose ->
  findByName d pose' = findByName d pose ->
  drawPair color pose' ctx (c, d) = drawPair color pose ctx (c, d).
Proof. unfold drawPair. now intros -> ->. Qed.

(** ** The verdict reads names and y-coordinates only *)

Lemma yOf_outline (n : string) (pose pose' : Pose) :
  outline (keypoints pose) = outline (keypoints pose') ->
  yOf n pose = yOf n pose'.
Proof.
  unfold yOf, findByName.
  generalize (keypoints pose') as l'. generalize (keypoints pose) as l.
  induction l as [ | k l IH]; intros [ | k' l'] H; simpl in *;
    try discriminate; [reflexivity | ].
  injection H as Hn Hy Hl. unfold nameIs at 1 3. rewrite Hn.
  destruct (name k') as [m | ]; [destruct (String.eqb m n) | ]; simpl;
    auto using f_equal.
Qed.

Lemma isPerfectAngle_yOf (pose : Pose) :
  isPerfectAngle pose =
  match yOf "left_shoulder" pose, yOf "right_shoulder" pose,
        yOf "left_hip" pose, yOf "right_hip" pose with
  | Some ls, Some rs, Some lh, Some rh =>
      lt (Math_abs (minus ls rs)) 20%float &&
      lt (Math_abs (minus lh rh)) 20%float
  | _, _, _, _ => false
  end.
Proof.
  unfold isPerfectAngle, yOf.
  destruct (findByName "left_shoulder" pose),
           (findByName "right_shoulder" pose),
           (findByName "left_hip" pose),
           (findByName "right_hip" pose); reflexivity.
Qed.

Lemma isPerfectAngle_outline (pose pose' : Pose) :
  outline (keypoints pose) = outline (keypoints pose') ->
  isPerfectAngle pose = isPerfectAngle pose'.
Proof.
  intros H. rewrite !isPerfectAngle_yOf.
  now rewrite !(fun n => yOf_outline n pose pose' H).
Qed.

Lemma outline_setScore (l1 l2 : list Keypoint) (k : Keypoint)
    (s : option number) :
  outline (l1 ++ setScore s k :: l2) = outline (l1 ++ k :: l2).
Proof. unfold outline. now rewrite !map_app. Qed.

Lemma app_one_neq {A : Type} (l : list A) (a : A) : l ++ [a] <> l.
Proof.
  intros H. apply (f_equal (@List.length A)) in H.
  rewrite length_app in H. simpl in H. lia.
Qed.

Lemma confident_lowered (s : number) (k : Keypoint) :
  le s 0.5%float = true -> confident (setScore (Some s) k) = false.
Proof. intros H. unfold confident. simpl. now apply le_not_gt. Qed.

(** ** Skeleton edges *)

(** C3 (as amended): a pair's segment (width 2, in the colour handed down)
    is painted exactly when both names are found and both keypoints found
    are confident. Lowering the score of the keypoint looked up for an
    endpoint to at most 0.5, or removing the only keypoint of that name,
    suppresses the pair. Lowering leaves the colour, the dots of the other
    keypoints and every pair that does not name that keypoint as they were;
    removal leaves every pair that does not name it with the same lookups
    and drops only that keypoint's dot. *)
Theorem segment_iff_both_confident (color : string) (ctx : Context2D)
    (pose : Pose) (a b : string) :
  (painted (drawPair color pose ctx (a, b)) <> painted ctx <->
     exists fk tk,
       findByName a pose = Some fk /\ findByName b pose = Some tk /\
       confident fk = true /\ confident tk = true)
  /\ (forall fk tk,
        findByName a pose = Some fk -> findByName b pose = Some tk ->
        confident fk = true -> confident tk = true ->
        painted (drawPair color pose ctx (a, b)) =
        painted ctx ++ [segment (transform (current ctx)) color fk tk])
  /\ (forall l1 k l2 s,
        keypoints pose = l1 ++ k :: l2 ->
        (forall k', In k' l1 -> name k' <> name k) ->
        name k = Some a \/ name k = Some b ->
        le s 0.5%float = true ->
        let pose' := mkPose (l1 ++ setScore (Some s) k :: l2) in
        drawPair color pose' ctx (a, b) = ctx /\
        colorOf pose' = colorOf pose /\
        filter confident (keypoints pose') =
          filter confident l1 ++ filter confident l2 /\
        forall c d, name k <> Some c -> name k <> Some d ->
          drawPair color pose' ctx (c, d) = drawPair color pose ctx (c, d))
  /\ (forall l1 k l2,
        keypoints pose = l1 ++ k :: l2 ->
        (forall k', In k' (l1 ++ l2) -> name k' <> name k) ->
        name k = Some a \/ name k = Some b ->
        let pose' := mkPose (l1 ++ l2) in
        drawPair color pose' ctx (a, b) = ctx /\
        filter confident (keypoints pose') =
          filter confident l1 ++ filter confident l2 /\
        forall c d, name k <> Some c -> name k <> Some d ->
          drawPair color pose' ctx (c, d) = drawPair color pose ctx (c, d)).
Proof.
  split; [ | split; [ | split]].
  - unfold drawPair.
    destruct (findByName a pose) as [fk | ], (findByName b pose) as [tk | ].
    + destruct (confident fk) eqn:Ef, (confident tk) eqn:Et; cbn [andb];
        (split;
         [ intros H; try (exfalso; apply H; reflexivity);
           exists fk, tk; now repeat split
         | intros (f' & t' & E1 & E2 & C1 & C2);
           try (rewrite drawLine_painted; apply app_one_neq);
           congruence ]).
    + split; [intros H; now contradiction H
             | intros (f' & t' & _ & E & _); discriminate].
    + split; [intros H; now contradiction H
             | intros (f' & t' & E & _); discriminate].
    + split; [intros H; now contradiction H
             | intros (f' & t' & E & _); discriminate].
  - intros fk tk E1 E2 C1 C2. unfold drawPair.
    rewrite E1, E2, C1, C2. apply drawLine_painted.
  - intros l1 k l2 s Hk Hfirst Hend Hs pose'. subst pose'.
    assert (Hlow : confident (setScore (Some s) k) = false)
      by now apply confident_lowered.
    assert (Hfirst' : forall k', In k' l1 ->
                        name k' <> name (setScore (Some s) k))
      by exact Hfirst.
    split; [ | split; [ | split]].
    + unfold drawPair. destruct Hend as [Hn | Hn].
      * rewrite (findByName_first a l1 l2 (setScore (Some s) k) Hfirst' Hn).
        destruct (findByName b _) as [tk | ]; [ | reflexivity].
        now rewrite Hlow.
      * rewrite (findByName_first b l1 l2 (setScore (Some s) k) Hfirst' Hn).
        destruct (findByName a _) as [fk | ]; [ | reflexivity].
        rewrite Hlow. now rewrite andb_false_r.
    + unfold colorOf.
      rewrite (isPerfectAngle_outline
                 (mkPose (l1 ++ setScore (Some s) k :: l2)) pose);
        [reflexivity | ].
      simpl. rewrite Hk. apply outline_setScore.
    + simpl. rewrite filter_app. simpl. now rewrite Hlow.
    + intros c d Hc Hd. apply drawPair_same_lookups.
      * rewrite (findByName_skip c l1 l2 (setScore (Some s) k) Hc).
        destruct pose as [kps]. simpl in Hk. subst kps.
        now rewrite (findByName_skip c l1 l2 k Hc).
      * rewrite (findByName_skip d l1 l2 (setScore (Some s) k) Hd).
        destruct pose as [kps]. simpl in Hk. subst kps.
        now rewrite (findByName_skip d l1 l2 k Hd).
  - intros l1 k l2 Hk Hothers Hend pose'. subst pose'.
    split; [ | split].
    + unfold drawPair. destruct Hend as [Hn | Hn].
      * rewrite (findByName_gone a (l1 ++ l2)); [reflexivity | ].
        intros k' Hk'. rewrite <- Hn. now apply Hothers.
      * rewrite (findByName_gone b (l1 ++ l2)).
        -- now destruct (findByName a _).
        -- intros k' Hk'. rewrite <- Hn. now apply Hothers.
    + simpl. apply filter_app.
    + intros c d Hc Hd. apply drawPair_same_lookups.
      * destruct pose as [kps]. simpl in Hk. subst kps.
        now rewrite (findByName_skip c l1 l2 k Hc).
      * destruct pose as [kps]. simpl in Hk. subst kps.
        now rewrite (findByName_skip d l1 l2 k Hd).
Qed.

(** C3, the claim as stated fails: with every score at 0.9, lowering the
    left shoulder's score to 0.5 suppresses the pair of the two shoulders,
    and with it the pair of the left shoulder and the left elbow, which
    was painted before. *)
Lemma suppressesOnly_counterexample :
  ~ suppressesOnly (shoulderAt (Some nineTenths)) (shoulderAt (Some 0.5%float))
      ("left_shoulder", "right_shoulder").
Proof.
  intros H. destruct (H "green" defaultContext) as [_ Hothers].
  specialize (Hothers ("left_shoulder", "left_elbow")).
  assert (Hin : In ("left_shoulder", "left_elbow") keypointPairs)
    by (simpl; auto).
  assert (Hne : ("left_shoulder", "left_elbow") <>
                ("left_shoulder", "right_shoulder")) by discriminate.
  specialize (Hothers Hin Hne).
  apply (f_equal painted) in Hothers.
  vm_compute in Hothers. discriminate.
Qed.

(** The same pose at work in the amended statement: the lowered shoulder
    suppresses its pairs, the hips' pair is painted as before. *)
Example lowered_shoulder_example :
  drawPair "green" (shoulderAt (Some 0.5%float)) defaultContext
           ("left_shoulder", "right_shoulder") = defaultContext /\
  drawPair "green" (shoulderAt (Some 0.5%float)) defaultContext
           ("left_hip", "right_hip") =
  drawPair "green" (shoulderAt (Some nineTenths)) defaultContext
           ("left_hip", "right_hip") /\
  colorOf (shoulderAt (Some 0.5%float)) = "green" /\
  colorOf noLeftShoulder = "red".
Proof. repeat split; vm_compute; reflexivity. Qed.

(** ** The verdict and the scores *)

(** C10: the verdict never reads a score. Two poses with the same names and
    coordinates get the same verdict whatever their scores; once the four
    keypoints are found the verdict is the comparison of their
    y-coordinates alone; and the pose with level shoulders and hips whose
    scores are all 0.5 paints nothing, yet its verdict is true and its
    colour green. *)
Theorem verdict_ignores_scores :
  (forall pose pose',
     outline (keypoints pose) = outline (keypoints pose') ->
     isPerfectAngle pose = isPerfectAngle pose')
  /\ (forall f pose, isPerfectAngle (withScores f pose) = isPerfectAngle pose)
  /\ (forall pose ls rs lh rh,
        findByName "left_shoulder" pose = Some ls ->
        findByName "right_shoulder" pose = Some rs ->
        findByName "left_hip" pose = Some lh ->
        findByName "right_hip" pose = Some rh ->
        forall f,
          isPerfectAngle (withScores f pose) =
          lt (Math_abs (minus (y ls) (y rs))) 20%float &&
          lt (Math_abs (minus (y lh) (y rh))) 20%float)
  /\ (Forall (fun k => score k = Some 0.5%float /\ confident k = false)
             (keypoints (levelPose 0.5%float)) /\
      Forall (fun n => present n (levelPose 0.5%float)) requiredNames /\
      isPerfectAngle (levelPose 0.5%float) = true /\
      colorOf (levelPose 0.5%float) = "green" /\
      forall ctx, painted (drawPose ctx (levelPose 0.5%float)) = painted ctx).
Proof.
  assert (Hw : forall f pose,
             isPerfectAngle (withScores f pose) = isPerfectAngle pose).
  { intros f pose. apply isPerfectAngle_outline.
    unfold outline, withScores. simpl. rewrite map_map. reflexivity. }
  split; [exact isPerfectAngle_outline | split; [exact Hw | split]].
  - intros pose ls rs lh rh E1 E2 E3 E4 f. rewrite Hw.
    unfold isPerfectAngle. now rewrite E1, E2, E3, E4.
  - split; [ | split; [ | split; [ | split]]].
    + repeat constructor.
    + repeat constructor; apply findByName_present; vm_compute; eauto.
    + vm_compute. reflexivity.
    + vm_compute. reflexivity.
    + intros ctx. destruct (drawPose_spec ctx (levelPose 0.5%float)) as [_ ->].
      rewrite <- (app_nil_r (painted ctx)) at 2. f_equal.
Qed.

(** ** The tick and the loop *)

(** Whatever is drawn between them, [restore] gives back the state that
    [save] pushed and the stack it was pushed on. *)
Lemma restore_mirrored (w h : N) (poses : list Pose) (ctx : Context2D) :
  current (restore (mirrored w h poses ctx)) = current ctx /\
  saved (restore (mirrored w h poses ctx)) = saved ctx.
Proof.
  unfold mirrored.
  destruct (drawPoses_frame poses
              (clearRect 0%float 0%float (ofN w) (ofN h)
                 (translate (neg (ofN w)) 0%float
                    (scale (-1)%float 1%float (save ctx))))) as [Hs _].
  unfold restore. rewrite Hs. simpl. split; reflexivity.
Qed.

(** Between [save] and [restore] the transform is the mirror composed with
    the transform the tick started from. *)
Lemma mirrored_transform (w h : N) (poses : list Pose) :
  transform (current (mirrored w h poses defaultContext)) = mirror w.
Proof.
  unfold mirrored.
  destruct (drawPoses_frame poses
              (clearRect 0%float 0%float (ofN w) (ofN h)
                 (translate (neg (ofN w)) 0%float
                    (scale (-1)%float 1%float (save defaultContext)))))
    as [_ Ht].
  rewrite Ht. reflexivity.
Qed.

Lemma detectPose_draws (video : Video) (poses : list Pose) (canvas : Canvas) :
  readyState video = HAVE_ENOUGH_DATA ->
  detectPose video (Poses poses) canvas =
  (mkCanvas (videoWidth video) (videoHeight video)
     (restore (mirrored (videoWidth video) (videoHeight video) poses
                        defaultContext)),
   NextFrameRequested).
Proof.
  intros H. unfold detectPose. rewrite H. reflexivity.
Qed.

Lemma detectPose_skips (video : Video) (estimate : Estimate) (canvas : Canvas) :
  readyState video <> HAVE_ENOUGH_DATA ->
  detectPose video estimate canvas = (canvas, NothingRequested).
Proof.
  intros H. unfold detectPose. apply N.eqb_neq in H. now rewrite H.
Qed.

Lemma detectPose_requests (video : Video) (estimate : Estimate)
    (canvas canvas' : Canvas) :
  detectPose video estimate canvas = (canvas', NextFrameRequested) ->
  transformOf canvas' = identity /\ saved (context canvas') = [].
Proof.
  unfold detectPose.
  destruct (N.eqb (readyState video) HAVE_ENOUGH_DATA); [ | discriminate].
  destruct estimate as [poses | ]; [ | discriminate].
  intros H. injection H as <-. unfold transformOf. simpl.
  destruct (restore_mirrored (videoWidth video) (videoHeight video) poses
              defaultContext) as [Hc Hs].
  unfold mirrored in Hc, Hs. simpl in Hc, Hs. rewrite Hc, Hs.
  split; reflexivity.
Qed.

(** C8: in a loop started on a canvas whose transform is the identity, the
    transform is the identity at the start of every tick. A tick that draws
    works under the mirror of the frame's width and ends with the identity
    and an empty stack of saved states; whatever context the bracket starts
    from, its [restore] gives back the state its [save] pushed. *)
Theorem mirror_never_compounds (frames : list Frame) (canvas : Canvas) :
  transformOf canvas = identity ->
  Forall (fun c => transformOf c = identity) (fst (runLoop frames canvas))
  /\ (forall video poses c,
        readyState video = HAVE_ENOUGH_DATA ->
        let w := videoWidth video in
        let h := videoHeight video in
        transform (current (mirrored w h poses defaultContext)) = mirror w /\
        snd (detectPose video (Poses poses) c) = NextFrameRequested /\
        transformOf (fst (detectPose video (Poses poses) c)) = identity /\
        saved (context (fst (detectPose video (Poses poses) c))) = [])
  /\ (forall w h poses ctx,
        current (restore (mirrored w h poses ctx)) = current ctx /\
        saved (restore (mirrored w h poses ctx)) = saved ctx).
Proof.
  intros Hid. split; [ | split].
  - revert canvas Hid.
    induction frames as [ | [video estimate] rest IH]; intros canvas Hid.
    + constructor.
    + simpl.
      destruct (detectPose video estimate canvas) as [canvas' ending] eqn:E.
      destruct ending.
      * apply detectPose_requests in E. destruct E as [Hid' _].
        specialize (IH canvas' Hid').
        destruct (runLoop rest canvas') as [starts final]. simpl in *.
        constructor; assumption.
      * simpl. repeat constructor. exact Hid.
      * simpl. repeat constructor. exact Hid.
  - intros video poses c Hready w h.
    rewrite (detectPose_draws video poses c Hready). simpl.
    split; [apply mirrored_transform | ].
    split; [reflexivity | ].
    destruct (detectPose_requests video (Poses poses) c _
                (detectPose_draws video poses c Hready)) as [Ht Hs].
    split; [exact Ht | exact Hs].
  - intros w h poses ctx. apply restore_mirrored.
Qed.

(** A loop of three frames, the second with a pose to draw. *)
Lemma mirror_never_compounds_witness :
  transformOf freshCanvas = identity /\
  Forall (fun c => transformOf c = identity)
    (fst (runLoop [ (readyVideo, Poses []);
                    (readyVideo, Poses [levelPose nineTenths]);
                    (readyVideo, Poses []) ] freshCanvas)).
Proof.
  split; [reflexivity | ].
  apply (mirror_never_compounds
           [ (readyVideo, Poses []);
             (readyVideo, Poses [levelPose nineTenths]);
             (readyVideo, Poses []) ] freshCanvas eq_refl).
Defined.

(** C4 (the code): a tick that finds the video short of HAVE_ENOUGH_DATA
    leaves the canvas as it was and returns without requesting the next
    animation frame, so the loop ends there: no later frame is processed. *)
Theorem not_ready_tick_ends_loop (video : Video) (estimate : Estimate)
    (canvas : Canvas) (frames : list Frame) :
  readyState video <> HAVE_ENOUGH_DATA ->
  detectPose video estimate canvas = (canvas, NothingRequested) /\
  runLoop ((video, estimate) :: frames) canvas = ([canvas], canvas).
Proof.
  intros H. pose proof (detectPose_skips video estimate canvas H) as E.
  split; [exact E | ]. simpl. now rewrite E.
Qed.

(** A buffering frame followed by two playable ones: only the first tick
    runs. *)
Lemma not_ready_tick_ends_loop_witness :
  readyState bufferingVideo <> HAVE_ENOUGH_DATA /\
  runLoop [ (bufferingVideo, Poses [levelPose nineTenths]);
            (readyVideo, Poses [levelPose nineTenths]);
            (readyVideo, Poses [levelPose nineTenths]) ] freshCanvas =
  ([freshCanvas], freshCanvas).
Proof.
  assert (H : readyState bufferingVideo <> HAVE_ENOUGH_DATA) by discriminate.
  split; [exact H | ].
  apply (not_ready_tick_ends_loop bufferingVideo
           (Poses [levelPose nineTenths]) freshCanvas
           [ (readyVideo, Poses [levelPose nineTenths]);
             (readyVideo, Poses [levelPose nineTenths]) ] H).
Defined.

(** With every frame playable the loop runs a tick per frame. *)
Example ready_frames_all_run :
  List.length (fst (runLoop [ (readyVideo, Poses []);
                              (readyVideo, Poses [levelPose nineTenths]);
                              (readyVideo, Poses []) ] freshCanvas)) = 3%nat.
Proof. vm_compute. reflexivity. Qed.

(** ** Error messages *)

Lemma errorMessage_cases (error : ErrorValue) :
  In (errorMessage error)
     (genericMessage :: map errorMessage (map named captureFailures)).
Proof.
  unfold errorMessage. destruct (error_name error) as [n | ];
    [ | simpl; auto].
  repeat match goal with
         | |- context [String.eqb n ?s] => destruct (String.eqb n s)
         end; simpl; auto 10.
Qed.

(** C6: each of the six named capture failures has a fixed message of its
    own, the six are pairwise distinct and none is the generic one, and an
    error of any other name, or of no name, gets the generic message. *)
Theorem errorMessage_spec :
  map errorMessage (map named captureFailures) =
    [ "Camera access was denied. Please allow camera access and try again.";
      "No camera device found. Please ensure a camera is connected and try again.";
      "The fetching process for the media resource was aborted. Please try again.";
      "The media device is not readable. Please check your camera and try again.";
      "The constraints specified are not supported by the device. Please check your camera settings and try again.";
      "Security error while accessing the camera. Please check your browser settings and try again." ]
  /\ NoDup (genericMessage :: map errorMessage (map named captureFailures))
  /\ (forall error,
        (forall n, In n captureFailures -> error_name error <> Some n) ->
        errorMessage error = genericMessage)
  /\ (forall error w,
        handleError error =
        Do (setError (Some (errorMessage error)))
           (fun _ => Do (console_error "Error accessing the webcam:" error) Ret)
        /\ errorAfter w (Ev (setError (Some (errorMessage error))) ::
                         [Ev (console_error "Error accessing the webcam:" error)])
           = Some (errorMessage error)).
Proof.
  split; [reflexivity | split; [ | split]].
  - repeat (constructor; [simpl; intuition discriminate | ]). constructor.
  - intros error H. unfold errorMessage.
    destruct (error_name error) as [n | ]; [ | reflexivity].
    assert (Hn : forall m, In m captureFailures -> String.eqb n m = false).
    { intros m Hm. apply String.eqb_neq. intros ->. now apply (H m). }
    rewrite !Hn by (simpl; auto 10). reflexivity.
  - intros error w. split; reflexivity.
Qed.

(** ** Running the initialisation code *)

Section Runs.

Variable W : Type.
Variable respond : forall X : Type, Call X -> W -> X * W.

Lemma run_bind {A B : Type} (p : Prog A) (f : A -> Prog B) :
  forall w,
    run respond (bind p f) w =
    let '(t1, w1, a) := run respond p w in
    let '(t2, w2, b) := run respond (f a) w1 in
    (t1 ++ t2, w2, b).
Proof.
  induction p as [a | X c k IH]; intros w; simpl.
  - destruct (run respond (f a) w) as [[t2 w2] b]. reflexivity.
  - destruct (respond X c w) as [r w']. rewrite IH.
    destruct (run respond (k r) w') as [[t1 w1] a].
    destruct (run respond (f a) w1) as [[t2 w2] b]. reflexivity.
Qed.

Lemma traceOf_bind {A B : Type} (p : Prog A) (f : A -> Prog B) (w : W) :
  traceOf respond (bind p f) w =
  traceOf respond p w ++
  traceOf respond (f (snd (run respond p w))) (worldAfter respond p w).
Proof.
  unfold traceOf, worldAfter. rewrite run_bind.
  destruct (run respond p w) as [[t1 w1] a]. simpl.
  destruct (run respond (f a) w1) as [[t2 w2] b]. reflexivity.
Qed.

Lemma traceOf_call_bind {X B : Type} (c : Call X) (f : X -> Prog B)
    (w w1 : W) (r : X) :
  respond X c w = (r, w1) ->
  traceOf respond (bind (call c) f) w = Ev c :: traceOf respond (f r) w1.
Proof.
  intros H. unfold traceOf. simpl. rewrite H.
  destruct (run respond (f r) w1) as [[t w'] b]. reflexivity.
Qed.

Lemma traceOf_call {X : Type} (c : Call X) (w : W) :
  traceOf respond (call c) w = [Ev c].
Proof.
  unfold traceOf. simpl. destruct (respond X c w) as [r w']. reflexivity.
Qed.

Lemma traceOf_stopTracks (stream : MediaStream) :
  forall w,
    traceOf respond (stopTracks stream) w =
    map (fun t => Ev (track_stop t)) stream.
Proof.
  unfold traceOf.
  induction stream as [ | t rest IH]; intros w; simpl; [reflexivity | ].
  destruct (respond unit (track_stop t) w) as [r w'].
  specialize (IH w').
  destruct (run respond (stopTracks rest) w') as [[tr w''] a].
  simpl in *. now rewrite IH.
Qed.

(** One call answered: split on what the world gave back. *)
Ltac answered :=
  match goal with
  | |- context [respond ?X ?c ?w] =>
      let r := fresh "r" in
      let w' := fresh "w" in
      destruct (respond X c w) as [r w']; try destruct r; simpl
  end.

Lemma loadModel_no_permission_query (w : W) :
  existsb isPermissionQuery (traceOf respond loadModel w) = false.
Proof.
  unfold traceOf, loadModel, startVideoStream, loadModelFailed, handleError.
  simpl. repeat answered; reflexivity.
Qed.

Lemma loadModel_stages (w : W) :
  In (stagesOf (traceOf respond loadModel w))
     [ [ModelLoad]; [ModelLoad; Capture]; [ModelLoad; Capture; LoopStart] ].
Proof.
  unfold traceOf, loadModel, startVideoStream, loadModelFailed, handleError.
  simpl. repeat answered; cbv; auto.
Qed.

(** C7 (the code): the mount effect evaluates the permission query first.
    Granted: it goes on with [loadModel] at once. Prompt: it asks for the
    camera; on success it stops every track of the stream it got and only
    then goes on with [loadModel]; on refusal it reports through
    [handleError]; when the [getUserMedia] expression throws, the exception
    reaches [.catch] and the unable-to-check message is stored. Denied: it
    stores the fixed denial message and does nothing more. Promise rejected:
    it logs, stores the unable-to-check message and does nothing more. That
    message differs from the denial message and from every message of
    [handleError]. But when the query expression itself throws, as it does
    where [navigator.permissions] is undefined, no handler is in place: the
    exception leaves the effect, no error is stored and the view shows no
    banner. *)
Theorem permission_gate (w : W) :
  (forall w1, respond _ permissions_query w = (Resolved granted, w1) ->
     traceOf respond useEffect w =
     Ev permissions_query :: traceOf respond loadModel w1)
  /\ (forall w1 stream w2,
        respond _ permissions_query w = (Resolved prompt, w1) ->
        respond _ getUserMedia w1 = (Resolved stream, w2) ->
        traceOf respond useEffect w =
        Ev permissions_query :: Ev getUserMedia ::
        map (fun t => Ev (track_stop t)) stream ++
        traceOf respond loadModel (worldAfter respond (stopTracks stream) w2))
  /\ (forall w1 err w2,
        respond _ permissions_query w = (Resolved prompt, w1) ->
        respond _ getUserMedia w1 = (Rejected err, w2) ->
        traceOf respond useEffect w =
        [ Ev permissions_query; Ev getUserMedia;
          Ev (setError (Some (errorMessage err)));
          Ev (console_error "Error accessing the webcam:" err) ])
  /\ (forall w1, respond _ permissions_query w = (Resolved denied, w1) ->
        traceOf respond useEffect w =
        [ Ev permissions_query; Ev (setError (Some deniedMessage)) ])
  /\ (forall err w1, respond _ permissions_query w = (Rejected err, w1) ->
        traceOf respond useEffect w =
        [ Ev permissions_query;
          Ev (console_error "Error checking camera permissions:" err);
          Ev (setError (Some unableMessage)) ])
  /\ unableMessage <> deniedMessage
  /\ (forall err, errorMessage err <> unableMessage)
  /\ (forall w1 err w2,
        respond _ permissions_query w = (Resolved prompt, w1) ->
        respond _ getUserMedia w1 = (Threw err, w2) ->
        traceOf respond useEffect w =
        [ Ev permissions_query; Ev getUserMedia;
          Ev (console_error "Error checking camera permissions:" err);
          Ev (setError (Some unableMessage)) ])
  /\ (forall err w1, respond _ permissions_query w = (Threw err, w1) ->
        traceOf respond useEffect w =
          [ Ev permissions_query; Ev (uncaught err) ] /\
        errorAfter None (traceOf respond useEffect w) = None /\
        bannerOf (render (errorAfter None (traceOf respond useEffect w))) = []
        /\
        shown (videoStyles
                 (render (errorAfter None (traceOf respond useEffect w))))
          = true).
Proof.
  split; [ | split; [ | split; [ | split; [ | split; [ | split;
    [ | split; [ | split]]]]]]].
  - intros w1 H. unfold useEffect.
    now rewrite (traceOf_call_bind _ _ _ _ _ H).
  - intros w1 stream w2 H1 H2. unfold useEffect.
    rewrite (traceOf_call_bind _ _ _ _ _ H1).
    rewrite (traceOf_call_bind _ _ _ _ _ H2).
    now rewrite traceOf_bind, traceOf_stopTracks.
  - intros w1 err w2 H1 H2. unfold useEffect.
    rewrite (traceOf_call_bind _ _ _ _ _ H1).
    rewrite (traceOf_call_bind _ _ _ _ _ H2).
    unfold handleError. rewrite traceOf_bind, !traceOf_call. reflexivity.
  - intros w1 H. unfold useEffect.
    rewrite (traceOf_call_bind _ _ _ _ _ H). now rewrite traceOf_call.
  - intros err w1 H. unfold useEffect.
    rewrite (traceOf_call_bind _ _ _ _ _ H).
    rewrite traceOf_bind, !traceOf_call. reflexivity.
  - discriminate.
  - intros err H. pose proof (errorMessage_cases err) as Hin.
    rewrite H in Hin. simpl in Hin.
    repeat (destruct Hin as [Hin | Hin]; [discriminate Hin | ]).
    exact Hin.
  - intros w1 err w2 H1 H2. unfold useEffect.
    rewrite (traceOf_call_bind _ _ _ _ _ H1).
    rewrite (traceOf_call_bind _ _ _ _ _ H2).
    rewrite traceOf_bind, !traceOf_call. reflexivity.
  - intros err w1 H.
    assert (E : traceOf respond useEffect w =
                [ Ev permissions_query; Ev (uncaught err) ]).
    { unfold useEffect.
      rewrite (traceOf_call_bind _ _ _ _ _ H). now rewrite traceOf_call. }
    rewrite E. repeat split.
Qed.

(** C5 (as amended): Retry first clears the error, then runs [loadModel]
    and nothing else. Whatever error was displayed, the error shown
    afterwards is the one a run of [loadModel] from no error leaves; the
    permission is never queried again; the stages gone through are model
    load, then capture, then loop start, as far as the run gets; and the
    banner's button runs this same [retry] whatever its text. *)
Theorem retry_restarts_loadModel (w : W) :
  traceOf respond retry w =
    Ev (setError None) ::
    traceOf respond loadModel (snd (respond _ (setError None) w))
  /\ (forall error,
        errorAfter error (traceOf respond retry w) =
        errorAfter None
          (traceOf respond loadModel (snd (respond _ (setError None) w))))
  /\ existsb isPermissionQuery (traceOf respond retry w) = false
  /\ In (stagesOf (traceOf respond retry w))
        [ [ModelLoad]; [ModelLoad; Capture]; [ModelLoad; Capture; LoopStart] ]
  /\ (forall p,
        stagesOf (traceOf (answer (allGood p)) retry tt) =
        [ModelLoad; Capture; LoopStart])
  /\ (forall text, truthy (Some text) = true ->
        handlersOf (render (Some text)) = [onClick retry]).
Proof.
  assert (E : traceOf respond retry w =
              Ev (setError None) ::
              traceOf respond loadModel (snd (respond _ (setError None) w))).
  { unfold retry.
    destruct (respond unit (setError None) w) as [r w'] eqn:R.
    now rewrite (traceOf_call_bind _ _ _ _ _ R). }
  split; [exact E | split; [ | split; [ | split; [ | split]]]].
  - intros error. rewrite E. reflexivity.
  - rewrite E. simpl. apply loadModel_no_permission_query.
  - rewrite E. change (stagesOf (Ev (setError None) :: ?t)) with (stagesOf t).
    apply loadModel_stages.
  - intros p. reflexivity.
  - intros text H. unfold render. rewrite H. reflexivity.
Qed.

(** C9 (as amended): when the permission query resolves to denied, the
    effect stores the denial message and makes no further call, so no
    stream is opened and no tick ever draws; the banner shows that message
    with a Retry button; the video element is hidden; the canvas element is
    rendered with its usual style, not hidden. *)
Theorem denied_view (w w1 : W) :
  respond _ permissions_query w = (Resolved denied, w1) ->
  traceOf respond useEffect w =
    [ Ev permissions_query; Ev (setError (Some deniedMessage)) ]
  /\ bannerOf (render (errorAfter None (traceOf respond useEffect w))) =
       [ ([deniedMessage], ["Retry"]) ]
  /\ handlersOf (render (errorAfter None (traceOf respond useEffect w))) =
       [ onClick retry ]
  /\ shown (videoStyles
              (render (errorAfter None (traceOf respond useEffect w)))) = false
  /\ canvasStyles (render (errorAfter None (traceOf respond useEffect w))) =
       [ [("position", "absolute"); ("top", "0"); ("left", "0")] ]
  /\ shown (canvasStyles
              (render (errorAfter None (traceOf respond useEffect w)))) = true.
Proof.
  intros H.
  assert (E : traceOf respond useEffect w =
              [ Ev permissions_query; Ev (setError (Some deniedMessage)) ]).
  { unfold useEffect.
    rewrite (traceOf_call_bind _ _ _ _ _ H). now rewrite traceOf_call. }
  rewrite E. repeat split; reflexivity.
Qed.

End Runs.

(** The denied world at work. *)
Lemma denied_view_witness :
  answer deniedWorld _ permissions_query tt = (Resolved denied, tt) /\
  bannerOf (viewAfterMount deniedWorld) = [ ([deniedMessage], ["Retry"]) ] /\
  shown (videoStyles (viewAfterMount deniedWorld)) = false.
Proof.
  split; [reflexivity | ].
  pose proof (denied_view unit (answer deniedWorld) tt tt eq_refl)
    as (_ & Hb & _ & Hv & _).
  split; [exact Hb | exact Hv].
Defined.

(** C9, the claim as stated fails: in the denied world the canvas element
    is rendered and is not hidden. *)
Lemma canvas_shown_counterexample :
  bannerOf (viewAfterMount deniedWorld) = [ ([deniedMessage], ["Retry"]) ] /\
  shown (videoStyles (viewAfterMount deniedWorld)) = false /\
  shown (canvasStyles (viewAfterMount deniedWorld)) = true.
Proof. repeat split; vm_compute; reflexivity. Qed.

(** C5, the claim as stated fails: in a world where every call succeeds,
    Retry makes no permission query, and it loads the model before it
    captures: its stages are not permission check, capture, model load,
    loop start. *)
Lemma retry_stages_counterexample :
  stagesOf (traceOf (answer (allGood (Resolved granted))) retry tt) =
    [ModelLoad; Capture; LoopStart] /\
  stagesOf (traceOf (answer (allGood (Resolved granted))) retry tt) <>
    [PermissionCheck; Capture; ModelLoad; LoopStart] /\
  existsb isPermissionQuery
    (traceOf (answer (allGood (Resolved granted))) retry tt) = false.
Proof. repeat split; try discriminate; vm_compute; reflexivity. Qed.

(** The gate in sample worlds: granted, prompt, denied, query rejected. *)
Example gate_stages :
  stagesOf (traceOf (answer (allGood (Resolved granted))) useEffect tt) =
    [PermissionCheck; ModelLoad; Capture; LoopStart] /\
  traceOf (answer (allGood (Resolved prompt))) useEffect tt =
    Ev permissions_query :: Ev getUserMedia :: Ev (track_stop 7%nat) ::
    traceOf (answer (allGood (Resolved prompt))) loadModel tt /\
  errorAfter None (traceOf (answer deniedWorld) useEffect tt) =
    Some deniedMessage /\
  errorAfter None
    (traceOf (answer (allGood (Rejected newError))) useEffect tt) =
    Some unableMessage.
Proof. repeat split; vm_compute; reflexivity. Qed.

(** ** The statements at work on the sample data *)

(** Level shoulders and hips give a true verdict; without a left shoulder
    the verdict is false. *)
Lemma isPerfectAngle_spec_witness :
  isPerfectAngle (levelPose nineTenths) = true /\
  isPerfectAngle noLeftShoulder = false.
Proof.
  split.
  - apply (proj1 (isPerfectAngle_spec (levelPose nineTenths))).
    exists (keypointAt "left_shoulder" 300%float 100%float nineTenths),
           (keypointAt "right_shoulder" 200%float 105%float nineTenths),
           (keypointAt "left_hip" 290%float 200%float nineTenths),
           (keypointAt "right_hip" 210%float 215%float nineTenths).
    repeat split; reflexivity.
  - apply (proj2 (proj2 (isPerfectAngle_spec noLeftShoulder)) "left_shoulder").
    + simpl. auto.
    + intros [k [Hin Hn]]. simpl in Hin.
      destruct Hin as [<- | [<- | [<- | [<- | []]]]]; discriminate Hn.
Defined.

(** The scenarios of the specification: hips 15 pixels apart in height are
    level, hips 30 apart are not, and a missing hip or shoulder fails. *)
Example verdict_scenarios :
  colorOf (levelPose nineTenths) = "green" /\
  colorOf tiltedPose = "red" /\
  colorOf noLeftShoulder = "red" /\
  List.length (painted (drawPose defaultContext (levelPose nineTenths))) = 8%nat.
Proof. repeat split; vm_compute; reflexivity. Qed.

(** Lowering the left shoulder of the sample pose to 0.5. *)
Lemma segment_iff_both_confident_witness :
  drawPair "green" (shoulderAt (Some 0.5%float)) defaultContext
           ("left_shoulder", "right_shoulder") = defaultContext /\
  colorOf (shoulderAt (Some 0.5%float)) = colorOf (shoulderAt (Some nineTenths)).
Proof.
  pose proof
    (proj1 (proj2 (proj2
       (segment_iff_both_confident "green" defaultContext
          (shoulderAt (Some nineTenths)) "left_shoulder" "right_shoulder")))
       [] (keypointAt "left_shoulder" 300%float 100%float nineTenths)
       [ keypointAt "right_shoulder" 200%float 105%float nineTenths;
         keypointAt "left_elbow" 320%float 150%float nineTenths;
         keypointAt "left_hip" 290%float 200%float nineTenths;
         keypointAt "right_hip" 210%float 215%float nineTenths ]
       0.5%float eq_refl
       (fun k' (H : In k' []) => match H with end)
       (or_introl eq_refl) eq_refl) as (H1 & H2 & _).
  split; [exact H1 | exact H2].
Defined.

(** The two sample poses that differ in scores only. *)
Lemma verdict_ignores_scores_witness :
  isPerfectAngle (levelPose nineTenths) = isPerfectAngle (levelPose 0.5%float).
Proof.
  apply (proj1 verdict_ignores_scores (levelPose nineTenths)
           (levelPose 0.5%float) eq_refl).
Defined.

(** An error the mapping does not name. *)
Lemma errorMessage_spec_witness :
  errorMessage (named "TypeError") = genericMessage.
Proof.
  apply (proj1 (proj2 (proj2 errorMessage_spec)) (named "TypeError")).
  intros n Hn. simpl in Hn.
  destruct Hn as [<- | [<- | [<- | [<- | [<- | [<- | []]]]]]]; discriminate.
Defined.

(** The gate in a browser without the Permissions API: nothing is stored
    and no banner is shown; and in the world that prompts and then
    grants. *)
Lemma permission_gate_witness :
  (traceOf (answer noPermissionsApi) useEffect tt =
     [ Ev permissions_query; Ev (uncaught (named "TypeError")) ] /\
   errorAfter None (traceOf (answer noPermissionsApi) useEffect tt) = None /\
   bannerOf (viewAfterMount noPermissionsApi) = [] /\
   shown (videoStyles (viewAfterMount noPermissionsApi)) = true)
  /\ traceOf (answer (allGood (Resolved prompt))) useEffect tt =
     Ev permissions_query :: Ev getUserMedia ::
     map (fun t => Ev (track_stop t)) [7%nat] ++
     traceOf (answer (allGood (Resolved prompt))) loadModel
       (worldAfter (answer (allGood (Resolved prompt))) (stopTracks [7%nat])
                   tt).
Proof.
  split.
  - apply (proj2 (proj2 (proj2 (proj2 (proj2 (proj2 (proj2 (proj2
             (permission_gate unit (answer noPermissionsApi) tt))))))))
             (named "TypeError") tt eq_refl).
  - apply (proj1 (proj2
             (permission_gate unit (answer (allGood (Resolved prompt))) tt))
             tt [7%nat] tt eq_refl eq_refl).
Defined.

(** The banner's button for the denial message. *)
Lemma retry_restarts_loadModel_witness :
  handlersOf (render (Some deniedMessage)) = [onClick retry].
Proof.
  apply (proj2 (proj2 (proj2 (proj2 (proj2
           (retry_restarts_loadModel unit (answer deniedWorld) tt)))))
           deniedMessage eq_refl).
Defined.

(** A keypoint of the sample pose that is in the collection and is drawn. *)
Lemma dots_iff_confident_witness :
  In (keypointAt "left_hip" 290%float 200%float nineTenths)
     (filter confident (keypoints (levelPose nineTenths))).
Proof.
  apply (proj2 (proj1 (proj2
           (dots_iff_confident defaultContext (levelPose nineTenths)))
           (keypointAt "left_hip" 290%float 200%float nineTenths))).
  split.
  - simpl. auto.
  - exists nineTenths. split; reflexivity.
Defined.

(** * Further properties of the drawing code *)

Lemma drawPoses_painted (poses : list Pose) :
  forall ctx,
    painted (fold_left drawPose poses ctx) =
    painted ctx ++ flat_map (posePaints (transform (current ctx))) poses.
Proof.
  induction poses as [ | p poses IH]; intros ctx; simpl.
  - now rewrite app_nil_r.
  - rewrite IH. destruct (drawPose_spec ctx p) as [[_ Ht] Hp].
    rewrite Ht, Hp. unfold posePaints. now rewrite <- !app_assoc.
Qed.

Lemma pairPaints_style (m : Matrix) (color : string) (pose : Pose)
    (pairs : list (string * string)) :
  Forall (fun op => paintStyle op = Some color)
         (flat_map (pairPaints m color pose) pairs).
Proof.
  induction pairs as [ | pr pairs IH]; simpl; [constructor | ].
  apply Forall_app. split; [ | exact IH].
  unfold pairPaints.
  destruct (findByName (fst pr) pose) as [fk | ],
           (findByName (snd pr) pose) as [tk | ]; try constructor.
  destruct (confident fk && confident tk); repeat constructor.
Qed.

Lemma pairPaints_length (m : Matrix) (color : string) (pose : Pose)
    (pairs : list (string * string)) :
  List.length (flat_map (pairPaints m color pose) pairs) <= List.length pairs.
Proof.
  induction pairs as [ | pr pairs IH]; simpl; [lia | ].
  rewrite length_app. unfold pairPaints at 1.
  destruct (findByName (fst pr) pose) as [fk | ],
           (findByName (snd pr) pose) as [tk | ]; simpl; try lia.
  destruct (confident fk && confident tk); simpl; lia.
Qed.

(** X1: the poses of a frame are painted one after the other, each by
    itself: what is painted for a pose depends on that pose alone, and all
    of it, dots and segments, is in that pose's one colour, green or red. *)
Theorem poses_painted_independently (poses : list Pose) (ctx : Context2D) :
  painted (fold_left drawPose poses ctx) =
    painted ctx ++ flat_map (posePaints (transform (current ctx))) poses
  /\ (forall m pose,
        Forall (fun op => paintStyle op = Some (colorOf pose))
               (posePaints m pose))
  /\ (forall pose, colorOf pose = "green" \/ colorOf pose = "red").
Proof.
  split; [apply drawPoses_painted | split].
  - intros m pose. unfold posePaints. apply Forall_app. split.
    + apply Forall_forall. intros op Hop. apply in_map_iff in Hop.
      destruct Hop as [k [<- _]]. reflexivity.
    + apply pairPaints_style.
  - intros pose. unfold colorOf. destruct (isPerfectAngle pose); auto.
Qed.

(** X2: a pose paints at most one circle per keypoint and one segment per
    configured pair: never more than its number of keypoints plus ten
    operations. *)
Theorem posePaints_bound (m : Matrix) (pose : Pose) :
  List.length (posePaints m pose) <= List.length (keypoints pose) + 10.
Proof.
  unfold posePaints. rewrite length_app, length_map.
  pose proof (filter_length_le confident (keypoints pose)) as H1.
  pose proof (pairPaints_length m (colorOf pose) pose keypointPairs) as H2.
  change (List.length keypointPairs) with 10%nat in H2. lia.
Qed.

(** X3: a segment is never painted without the circles of both its ends:
    when a pair is drawn, the dots of the two keypoints found for it are
    among the dots painted for the pose. *)
Theorem segment_has_both_dots (m : Matrix) (pose : Pose) (a b : string)
    (fk tk : Keypoint) :
  findByName a pose = Some fk ->
  findByName b pose = Some tk ->
  pairPaints m (colorOf pose) pose (a, b) <> [] ->
  pairPaints m (colorOf pose) pose (a, b) =
    [segment m (colorOf pose) fk tk] /\
  In (dot m (colorOf pose) fk) (posePaints m pose) /\
  In (dot m (colorOf pose) tk) (posePaints m pose).
Proof.
  intros Ha Hb Hne. unfold pairPaints in *. simpl in *.
  rewrite Ha, Hb in *.
  destruct (confident fk) eqn:Cf, (confident tk) eqn:Ct; simpl in *;
    try (now contradiction Hne).
  split; [reflexivity | ].
  apply findByName_name in Ha. apply findByName_name in Hb.
  unfold posePaints.
  split; apply in_or_app; left; apply in_map; apply filter_In; tauto.
Qed.

(** The left shoulder and left elbow of the sample pose. *)
Lemma segment_has_both_dots_witness :
  In (dot identity "green"
          (keypointAt "left_elbow" 320%float 150%float nineTenths))
     (posePaints identity (levelPose nineTenths)).
Proof.
  apply (segment_has_both_dots identity (levelPose nineTenths)
           "left_shoulder" "left_elbow"
           (keypointAt "left_shoulder" 300%float 100%float nineTenths)
           (keypointAt "left_elbow" 320%float 150%float nineTenths)
           eq_refl eq_refl).
  discriminate.
Defined.

(** X4: a pose none of whose keypoints is confident leaves the context
    exactly as it was, whatever its verdict: no path is begun, no style is
    set, nothing is painted. *)
Theorem unconfident_pose_untouched (ctx : Context2D) (pose : Pose) :
  (forall k, In k (keypoints pose) -> confident k = false) ->
  drawPose ctx pose = ctx.
Proof.
  intros H. unfold drawPose. cbv zeta.
  assert (Hdots : fold_left (drawKeypoint (colorOf pose)) (keypoints pose) ctx
                  = ctx).
  { revert H. generalize (keypoints pose) as kps.
    induction kps as [ | k kps IH]; intros H; simpl; [reflexivity | ].
    unfold drawKeypoint at 2. rewrite (H k (or_introl eq_refl)).
    apply IH. intros k' Hk'. apply H. now right. }
  rewrite Hdots.
  generalize keypointPairs as pairs.
  induction pairs as [ | [a b] pairs IH]; cbn [fold_left]; [reflexivity | ].
  assert (E : drawPair (colorOf pose) pose ctx (a, b) = ctx).
  { unfold drawPair.
    destruct (findByName a pose) as [fk | ] eqn:Ea; [ | reflexivity].
    destruct (findByName b pose) as [tk | ]; [ | reflexivity].
    apply findByName_name in Ea. now rewrite (H fk (proj1 Ea)). }
  rewrite E. exact IH.
Qed.

(** The level pose with every score at 0.5. *)
Lemma unconfident_pose_untouched_witness :
  drawPose defaultContext (levelPose 0.5%float) = defaultContext.
Proof.
  apply (unconfident_pose_untouched defaultContext (levelPose 0.5%float)).
  intros k Hk. simpl in Hk.
  destruct Hk as [<- | [<- | [<- | [<- | [<- | []]]]]]; reflexivity.
Defined.

(** X5: of several keypoints of one name the first decides. Keypoints
    appended to a pose in which the four required names are present change
    neither a lookup of a name already present nor the verdict. *)
Theorem appended_keypoints_ignored (kps extra : list Keypoint) :
  (forall n, In n requiredNames -> present n (mkPose kps)) ->
  isPerfectAngle (mkPose (kps ++ extra)) = isPerfectAngle (mkPose kps) /\
  forall n, present n (mkPose kps) ->
    findByName n (mkPose (kps ++ extra)) = findByName n (mkPose kps).
Proof.
  intros H.
  assert (Hfind : forall n, present n (mkPose kps) ->
            findByName n (mkPose (kps ++ extra)) = findByName n (mkPose kps)).
  { intros n Hn. apply findByName_present in Hn. destruct Hn as [k Hk].
    unfold findByName in *. simpl in *. rewrite find_app_split.
    now rewrite Hk. }
  split; [ | exact Hfind].
  unfold isPerfectAngle.
  rewrite !Hfind by (apply H; simpl; auto). reflexivity.
Qed.

(** Two far-apart hips appended to the level pose: the verdict stays. *)
Lemma appended_keypoints_ignored_witness :
  isPerfectAngle crowdedPose = isPerfectAngle (levelPose nineTenths).
Proof.
  apply (appended_keypoints_ignored (keypoints (levelPose nineTenths))
           [ keypointAt "left_hip" 290%float 10%float nineTenths;
             keypointAt "right_hip" 210%float 400%float nineTenths ]).
  intros n Hn. apply findByName_present. simpl in Hn.
  destruct Hn as [<- | [<- | [<- | [<- | []]]]]; vm_compute; eauto.
Defined.

(** * Further properties of the tick and of the loop *)

Lemma painted_restore (ctx : Context2D) : painted (restore ctx) = painted ctx.
Proof. unfold restore. destruct (saved ctx); reflexivity. Qed.

Lemma mirrored_painted (w h : N) (poses : list Pose) :
  painted (mirrored w h poses defaultContext) =
  Cleared (mirror w) 0%float 0%float (ofN w) (ofN h) ::
  flat_map (posePaints (mirror w)) poses.
Proof.
  unfold mirrored. rewrite drawPoses_painted. reflexivity.
Qed.

(** X6: a tick that draws is a function of its frame alone. It resizes the
    canvas to the video's dimensions, which blanks it; what it leaves
    painted is one clearing of the whole frame followed by the paints of the
    frame's poses, all under the mirror of the frame's width; it ends in
    the default drawing state with nothing saved; and the canvas it started
    from has no influence on any of this. *)
Theorem drawing_tick_spec (video : Video) (poses : list Pose)
    (canvas : Canvas) :
  readyState video = HAVE_ENOUGH_DATA ->
  width (fst (detectPose video (Poses poses) canvas)) = videoWidth video /\
  height (fst (detectPose video (Poses poses) canvas)) = videoHeight video /\
  current (context (fst (detectPose video (Poses poses) canvas))) =
    defaultDrawState /\
  saved (context (fst (detectPose video (Poses poses) canvas))) = [] /\
  painted (context (fst (detectPose video (Poses poses) canvas))) =
    Cleared (mirror (videoWidth video)) 0%float 0%float
            (ofN (videoWidth video)) (ofN (videoHeight video)) ::
    flat_map (posePaints (mirror (videoWidth video))) poses /\
  forall other,
    detectPose video (Poses poses) other = detectPose video (Poses poses) canvas.
Proof.
  intros H. rewrite (detectPose_draws video poses canvas H). simpl.
  destruct (restore_mirrored (videoWidth video) (videoHeight video) poses
              defaultContext) as [Hc Hs].
  repeat split.
  - exact Hc.
  - exact Hs.
  - rewrite painted_restore. apply mirrored_painted.
  - intros other. now rewrite (detectPose_draws video poses other H).
Qed.

(** A playable frame with the level pose, on a fresh canvas and on one that
    was drawn on before. *)
Lemma drawing_tick_spec_witness :
  detectPose readyVideo (Poses [levelPose nineTenths])
    (fst (detectPose readyVideo (Poses [tiltedPose]) freshCanvas)) =
  detectPose readyVideo (Poses [levelPose nineTenths]) freshCanvas.
Proof.
  apply (proj2 (proj2 (proj2 (proj2 (proj2
           (drawing_tick_spec readyVideo [levelPose nineTenths] freshCanvas
              eq_refl)))))).
Defined.

(** X7: when [estimatePoses] is rejected on a playable frame, the tick has
    already resized, and so blanked, the canvas and installed the mirror;
    it ends there: nothing is painted, the mirror stays in force with the
    saved state never restored, no frame is requested and the loop is
    over. *)
Theorem rejected_estimate_halts (video : Video) (canvas : Canvas)
    (frames : list Frame) :
  readyState video = HAVE_ENOUGH_DATA ->
  snd (detectPose video EstimateThrows canvas) = TickRejected /\
  width (fst (detectPose video EstimateThrows canvas)) = videoWidth video /\
  height (fst (detectPose video EstimateThrows canvas)) = videoHeight video /\
  painted (context (fst (detectPose video EstimateThrows canvas))) = [] /\
  transformOf (fst (detectPose video EstimateThrows canvas)) =
    mirror (videoWidth video) /\
  saved (context (fst (detectPose video EstimateThrows canvas))) =
    [defaultDrawState] /\
  runLoop ((video, EstimateThrows) :: frames) canvas =
    ([canvas], fst (detectPose video EstimateThrows canvas)).
Proof.
  intros H. simpl. unfold detectPose. rewrite H. simpl.
  repeat split.
Qed.

(** A playable frame whose estimate fails, followed by a good one. *)
Lemma rejected_estimate_halts_witness :
  fst (runLoop [ (readyVideo, EstimateThrows);
                 (readyVideo, Poses [levelPose nineTenths]) ] freshCanvas) =
  [freshCanvas].
Proof.
  pose proof (rejected_estimate_halts readyVideo freshCanvas
                [ (readyVideo, Poses [levelPose nineTenths]) ] eq_refl)
    as (_ & _ & _ & _ & _ & _ & H).
  exact (f_equal fst H).
Defined.

Lemma drawable_requests (fr : Frame) (canvas : Canvas) :
  drawable fr = true ->
  snd (detectPose (fst fr) (snd fr) canvas) = NextFrameRequested.
Proof.
  unfold drawable, detectPose. destruct fr as [video estimate]. simpl.
  destruct (N.eqb (readyState video) HAVE_ENOUGH_DATA); [ | discriminate].
  destruct estimate; [reflexivity | discriminate].
Qed.

Lemma not_drawable_stops (fr : Frame) (canvas : Canvas) :
  drawable fr = false ->
  snd (detectPose (fst fr) (snd fr) canvas) <> NextFrameRequested.
Proof.
  unfold drawable, detectPose. destruct fr as [video estimate]. simpl.
  destruct (N.eqb (readyState video) HAVE_ENOUGH_DATA); [ | discriminate].
  destruct estimate; discriminate.
Qed.

Lemma runLoop_stops (fr : Frame) (rest : list Frame) (canvas : Canvas) :
  drawable fr = false ->
  runLoop (fr :: rest) canvas =
  ([canvas], fst (detectPose (fst fr) (snd fr) canvas)).
Proof.
  intros H. apply (not_drawable_stops fr canvas) in H.
  destruct fr as [video estimate]. simpl in *.
  destruct (detectPose video estimate canvas) as [c' ending].
  destruct ending; simpl in *; try reflexivity. now contradiction H.
Qed.

(** X8: the loop runs one tick per frame for as long as the frames are
    drawable, and the first frame that is not (video short of data, or
    estimate rejected) is the last tick: whatever frames come after it,
    they change neither the ticks run nor the canvas left. *)
Theorem first_undrawable_frame_is_last (pre post : list Frame) (fr : Frame)
    (canvas : Canvas) :
  forallb drawable pre = true ->
  drawable fr = false ->
  runLoop (pre ++ fr :: post) canvas = runLoop (pre ++ [fr]) canvas /\
  List.length (fst (runLoop (pre ++ fr :: post) canvas)) =
    S (List.length pre) /\
  List.length (fst (runLoop pre canvas)) = List.length pre.
Proof.
  intros Hpre Hfr. revert canvas.
  induction pre as [ | p pre IH]; intros canvas.
  - simpl app. rewrite !(runLoop_stops fr _ canvas Hfr). auto.
  - simpl in Hpre. apply andb_true_iff in Hpre. destruct Hpre as [Hp Hpre].
    specialize (IH Hpre).
    pose proof (drawable_requests p canvas Hp) as Hreq.
    destruct p as [video estimate]. simpl in *.
    destruct (detectPose video estimate canvas) as [c' ending].
    simpl in Hreq. subst ending.
    destruct (IH c') as (E & L1 & L2). rewrite E in L1 |- *.
    destruct (runLoop (pre ++ [fr]) c') as [starts final].
    destruct (runLoop pre c') as [starts' final'].
    simpl in *. auto.
Qed.

(** Two playable frames, a buffering one, then a playable one that is never
    reached. *)
Lemma first_undrawable_frame_is_last_witness :
  List.length
    (fst (runLoop ([ (readyVideo, Poses [levelPose nineTenths]);
                     (readyVideo, Poses []) ] ++
                   (bufferingVideo, Poses []) ::
                   [ (readyVideo, Poses [tiltedPose]) ]) freshCanvas)) = 3%nat.
Proof.
  apply (first_undrawable_frame_is_last
           [ (readyVideo, Poses [levelPose nineTenths]); (readyVideo, Poses []) ]
           [ (readyVideo, Poses [tiltedPose]) ]
           (bufferingVideo, Poses []) freshCanvas eq_refl eq_refl).
Defined.

(** * Further properties of the initialisation code *)

Lemma errorMessage_known (err : ErrorValue) : In (errorMessage err) allMessages.
Proof.
  pose proof (errorMessage_cases err) as H. unfold allMessages.
  simpl in *. intuition.
Qed.

Lemma allMessages_truthy (msg : string) :
  In msg allMessages -> truthy (Some msg) = true.
Proof.
  intros H. unfold allMessages in H. simpl in H.
  repeat (destruct H as [<- | H]; [reflexivity | ]). contradiction.
Qed.

Lemma errorAfter_app (e : option string) (t1 t2 : list Event) :
  errorAfter e (t1 ++ t2) = errorAfter (errorAfter e t1) t2.
Proof. apply fold_left_app. Qed.

Lemma errorAfter_stops (e : option string) (stream : MediaStream) :
  errorAfter e (map (fun t => Ev (track_stop t)) stream) = e.
Proof. induction stream as [ | t rest IH]; simpl; auto. Qed.

Section MoreRuns.

Variable W : Type.
Variable respond : forall X : Type, Call X -> W -> X * W.

(** One call answered: split on what the world gave back. *)
Ltac split_answer :=
  match goal with
  | |- context [respond ?X ?c ?w] =>
      let r := fresh "r" in
      let w' := fresh "w" in
      destruct (respond X c w) as [r w']; try destruct r; simpl
  end.

Ltac run_loadModel :=
  unfold traceOf, loadModel, startVideoStream, loadModelFailed, handleError;
  simpl; repeat split_answer.

Lemma loadModel_counts (w : W) :
  existsb isTrackStop (traceOf respond loadModel w) = false /\
  List.length (filter isSetError (traceOf respond loadModel w)) <= 1 /\
  List.length (filter isGetUserMedia (traceOf respond loadModel w)) <= 1 /\
  List.length (filter isCreateDetector (traceOf respond loadModel w)) <= 1 /\
  List.length (filter isLoopStart (traceOf respond loadModel w)) <= 1.
Proof. run_loadModel; simpl; repeat split; auto. Qed.

Lemma loadModel_error (w : W) (e : option string) :
  errorAfter e (traceOf respond loadModel w) = e \/
  exists msg, errorAfter e (traceOf respond loadModel w) = Some msg /\
              In msg allMessages.
Proof.
  run_loadModel;
    try (left; reflexivity);
    right; eexists; (split; [reflexivity | ]);
    try apply errorMessage_known; unfold allMessages; simpl; auto 12.
Qed.

Lemma loadModel_started (w : W) (e : option string) :
  existsb isLoopStart (traceOf respond loadModel w) = true ->
  existsb isSetError (traceOf respond loadModel w) = false /\
  errorAfter e (traceOf respond loadModel w) = e /\
  stagesOf (traceOf respond loadModel w) = [ModelLoad; Capture; LoopStart] /\
  List.length (filter isLoopStart (traceOf respond loadModel w)) = 1%nat.
Proof. run_loadModel; intros H; try discriminate H; repeat split. Qed.

Lemma loadModel_not_started (w : W) (e : option string) :
  existsb isLoopStart (traceOf respond loadModel w) = false ->
  (exists msg, errorAfter e (traceOf respond loadModel w) = Some msg /\
               In msg allMessages /\
               existsb isSetError (traceOf respond loadModel w) = true) \/
  traceOf respond loadModel w =
    [Ev tf_setBackend; Ev tf_ready; Ev createDetector; Ev refs_current].
Proof.
  run_loadModel; intros H; try discriminate H;
    try (right; reflexivity);
    left; eexists; (split; [reflexivity | split; [ | reflexivity]]);
    try apply errorMessage_known; unfold allMessages; simpl; auto 12.
Qed.

Lemma loadModel_model_failure (w : W) :
  errorAfter None (traceOf respond loadModel w) = Some modelMessage ->
  existsb isGetUserMedia (traceOf respond loadModel w) = false /\
  stagesOf (traceOf respond loadModel w) = [ModelLoad].
Proof.
  run_loadModel; intros H; try discriminate H; try (split; reflexivity);
    exfalso; revert H;
    match goal with
    | |- Some (errorMessage ?err) = _ -> _ =>
        intros H; injection H as H;
        pose proof (errorMessage_cases err) as Hin; rewrite H in Hin;
        simpl in Hin;
        repeat (destruct Hin as [Hin | Hin]; [discriminate Hin | ]);
        exact Hin
    end.
Qed.

Lemma useEffect_cases (w : W) :
  (exists w1,
     respond _ permissions_query w = (Resolved granted, w1) /\
     traceOf respond useEffect w =
       Ev permissions_query :: traceOf respond loadModel w1)
  \/ (exists w1 stream w2,
        respond _ permissions_query w = (Resolved prompt, w1) /\
        respond _ getUserMedia w1 = (Resolved stream, w2) /\
        traceOf respond useEffect w =
          Ev permissions_query :: Ev getUserMedia ::
          map (fun t => Ev (track_stop t)) stream ++
          traceOf respond loadModel
            (worldAfter respond (stopTracks stream) w2))
  \/ (exists w1 err w2,
        respond _ permissions_query w = (Resolved prompt, w1) /\
        respond _ getUserMedia w1 = (Rejected err, w2) /\
        traceOf respond useEffect w =
          [ Ev permissions_query; Ev getUserMedia;
            Ev (setError (Some (errorMessage err)));
            Ev (console_error "Error accessing the webcam:" err) ])
  \/ (exists w1,
        respond _ permissions_query w = (Resolved denied, w1) /\
        traceOf respond useEffect w =
          [ Ev permissions_query; Ev (setError (Some deniedMessage)) ])
  \/ (exists err w1,
        respond _ permissions_query w = (Rejected err, w1) /\
        traceOf respond useEffect w =
          [ Ev permissions_query;
            Ev (console_error "Error checking camera permissions:" err);
            Ev (setError (Some unableMessage)) ])
  \/ (exists w1 err w2,
        respond _ permissions_query w = (Resolved prompt, w1) /\
        respond _ getUserMedia w1 = (Threw err, w2) /\
        traceOf respond useEffect w =
          [ Ev permissions_query; Ev getUserMedia;
            Ev (console_error "Error checking camera permissions:" err);
            Ev (setError (Some unableMessage)) ])
  \/ (exists err w1,
        respond _ permissions_query w = (Threw err, w1) /\
        traceOf respond useEffect w =
          [ Ev permissions_query; Ev (uncaught err) ]).
Proof.
  unfold useEffect.
  destruct (respond _ permissions_query w) as [[[ | | ] | err | err] w1] eqn:Q;
    rewrite (traceOf_call_bind _ _ _ _ _ _ _ Q).
  - left. now exists w1.
  - destruct (respond _ getUserMedia w1) as [[stream | err | err] w2] eqn:G;
      rewrite (traceOf_call_bind _ _ _ _ _ _ _ G).
    + right; left. exists w1, stream, w2.
      now rewrite traceOf_bind, traceOf_stopTracks.
    + right; right; left. exists w1, err, w2.
      unfold handleError. now rewrite traceOf_bind, !traceOf_call.
    + do 5 right. left. exists w1, err, w2.
      now rewrite traceOf_bind, !traceOf_call.
  - right; right; right; left. exists w1. now rewrite traceOf_call.
  - right; right; right; right; left. exists err, w1.
    now rewrite traceOf_bind, !traceOf_call.
  - do 6 right. exists err, w1. now rewrite traceOf_call.
Qed.

Lemma retry_trace (w : W) :
  traceOf respond retry w =
  Ev (setError None) ::
  traceOf respond loadModel (snd (respond _ (setError None) w)).
Proof.
  unfold retry. destruct (respond unit (setError None) w) as [r w'] eqn:R.
  now rewrite (traceOf_call_bind _ _ _ _ _ _ _ R).
Qed.

Lemma filter_stops (p : Event -> bool) (stream : MediaStream) :
  (forall t, p (Ev (track_stop t)) = false) ->
  filter p (map (fun t => Ev (track_stop t)) stream) = [].
Proof.
  intros H. induction stream as [ | t rest IH]; simpl; [reflexivity | ].
  now rewrite H.
Qed.

Lemma filter_stops_all (stream : MediaStream) :
  filter isTrackStop (map (fun t => Ev (track_stop t)) stream) =
  map (fun t => Ev (track_stop t)) stream.
Proof.
  induction stream as [ | t rest IH]; simpl; [reflexivity | now f_equal].
Qed.

Lemma existsb_filter {A : Type} (p : A -> bool) (l : list A) :
  existsb p l = negb (Nat.eqb (List.length (filter p l)) 0).
Proof.
  induction l as [ | a l IH]; simpl; [reflexivity | ].
  destruct (p a); simpl; auto.
Qed.

(** X9: the frame loop is started only by a run that stored no error. If
    the mount effect starts the loop, the error state is still empty when
    it ends and the loop was started exactly once; if Retry starts the
    loop, the error it cleared stays cleared. *)
Theorem loop_start_means_no_error (w : W) :
  (existsb isLoopStart (traceOf respond useEffect w) = true ->
     errorAfter None (traceOf respond useEffect w) = None /\
     List.length (filter isLoopStart (traceOf respond useEffect w)) = 1%nat)
  /\ (forall e,
        existsb isLoopStart (traceOf respond retry w) = true ->
        errorAfter e (traceOf respond retry w) = None /\
        List.length (filter isLoopStart (traceOf respond retry w)) = 1%nat).
Proof.
  split.
  - destruct (useEffect_cases w)
      as [(w1 & _ & E) | [(w1 & stream & w2 & _ & _ & E)
         | [(w1 & err & w2 & _ & _ & E) | [(w1 & _ & E) | [(err & w1 & _ & E)
         | [(w1 & err & w2 & _ & _ & E) | (err & w1 & _ & E)]]]]]];
      rewrite E; try discriminate.
    + simpl. intros H.
      destruct (loadModel_started w1 None H) as (_ & He & _ & Hn).
      now split.
    + cbn [existsb isLoopStart filter errorAfter fold_left errorStep].
      rewrite existsb_app, filter_app, (filter_stops isLoopStart) by reflexivity.
      rewrite existsb_filter, (filter_stops isLoopStart) by reflexivity.
      simpl. intros H.
      destruct (loadModel_started _ None H) as (_ & He & _ & Hn).
      split; [ | exact Hn].
      change (errorAfter None
                (map (fun t => Ev (track_stop t)) stream ++
                 traceOf respond loadModel
                   (worldAfter respond (stopTracks stream) w2)) = None).
      now rewrite errorAfter_app, errorAfter_stops.
  - intros e. rewrite retry_trace. simpl. intros H.
    destruct (loadModel_started _ None H) as (_ & He & _ & Hn).
    now split.
Qed.

(** X10: a mount effect that does not start the loop ends with one of the
    component's fixed texts stored as its error, a text the banner shows,
    with two exceptions, both silent: a run of [loadModel] that found the
    video or canvas ref not current ends right there, and a run whose
    permission-query expression threw ends with the exception uncaught. In
    both no loop runs and no error is stored. *)
Theorem no_loop_means_error_or_silent (w : W) :
  existsb isLoopStart (traceOf respond useEffect w) = false ->
  (exists msg,
     errorAfter None (traceOf respond useEffect w) = Some msg /\
     In msg allMessages /\ truthy (Some msg) = true)
  \/ (exists before,
        traceOf respond useEffect w =
        before ++
        [Ev tf_setBackend; Ev tf_ready; Ev createDetector; Ev refs_current] /\
        errorAfter None (traceOf respond useEffect w) = None)
  \/ (exists err,
        traceOf respond useEffect w =
        [Ev permissions_query; Ev (uncaught err)] /\
        errorAfter None (traceOf respond useEffect w) = None).
Proof.
  assert (Hlm : forall w',
            existsb isLoopStart (traceOf respond loadModel w') = false ->
            (exists msg,
               errorAfter None (traceOf respond loadModel w') = Some msg /\
               In msg allMessages /\ truthy (Some msg) = true)
            \/ traceOf respond loadModel w' =
                [Ev tf_setBackend; Ev tf_ready; Ev createDetector;
                 Ev refs_current]).
  { intros w' H. destruct (loadModel_not_started w' None H)
      as [(msg & He & Hin & _) | Ht]; [left | now right].
    exists msg. repeat split; auto using allMessages_truthy. }
  destruct (useEffect_cases w)
    as [(w1 & _ & E) | [(w1 & stream & w2 & _ & _ & E)
       | [(w1 & err & w2 & _ & _ & E) | [(w1 & _ & E) | [(err & w1 & _ & E)
       | [(w1 & err & w2 & _ & _ & E) | (err & w1 & _ & E)]]]]]];
    rewrite E.
  - simpl. intros H. destruct (Hlm w1 H) as [Hm | Ht].
    + now left.
    + right; left. exists [Ev permissions_query]. now rewrite Ht.
  - cbn [existsb isLoopStart].
    rewrite existsb_app, existsb_filter, (filter_stops isLoopStart)
      by reflexivity.
    simpl. intros H. destruct (Hlm _ H) as [(msg & He & Hin & Ht) | Ht].
    + left. exists msg. repeat split; auto.
      change (errorAfter None
                (map (fun t => Ev (track_stop t)) stream ++
                 traceOf respond loadModel
                   (worldAfter respond (stopTracks stream) w2)) = Some msg).
      now rewrite errorAfter_app, errorAfter_stops.
    + right; left.
      exists (Ev permissions_query :: Ev getUserMedia ::
              map (fun t => Ev (track_stop t)) stream).
      rewrite Ht. split; [reflexivity | ].
      change (errorAfter None
                (map (fun t => Ev (track_stop t)) stream ++
                 [Ev tf_setBackend; Ev tf_ready; Ev createDetector;
                  Ev refs_current]) = None).
      now rewrite errorAfter_app, errorAfter_stops.
  - intros _. left. exists (errorMessage err).
    repeat split; auto using errorMessage_known, allMessages_truthy.
  - intros _. left. exists deniedMessage. repeat split.
    unfold allMessages. simpl. auto 12.
  - intros _. left. exists unableMessage. repeat split.
    unfold allMessages. simpl. auto 12.
  - intros _. left. exists unableMessage. repeat split.
    unfold allMessages. simpl. auto 12.
  - intros _. right; right. exists err. split; reflexivity.
Qed.

(** X11: the model-loading text is stored only when the model itself could
    not be loaded. A Retry that ends with it has never asked for the
    camera and never went past the model stage; and neither has a run of
    [loadModel] from no error. *)
Theorem model_failure_before_capture (w : W) :
  (forall e,
     errorAfter e (traceOf respond retry w) = Some modelMessage ->
     existsb isGetUserMedia (traceOf respond retry w) = false /\
     stagesOf (traceOf respond retry w) = [ModelLoad])
  /\ (errorAfter None (traceOf respond loadModel w) = Some modelMessage ->
      existsb isGetUserMedia (traceOf respond loadModel w) = false /\
      stagesOf (traceOf respond loadModel w) = [ModelLoad]).
Proof.
  split.
  - intros e. rewrite retry_trace.
    change (errorAfter e (Ev (setError None) :: ?t)) with (errorAfter None t).
    change (stagesOf (Ev (setError None) :: ?t)) with (stagesOf t).
    simpl existsb. apply loadModel_model_failure.
  - apply loadModel_model_failure.
Qed.

Lemma render_truthy (msg : string) :
  truthy (Some msg) = true ->
  bannerOf (render (Some msg)) = [ ([msg], ["Retry"]) ] /\
  handlersOf (render (Some msg)) = [onClick retry] /\
  shown (videoStyles (render (Some msg))) = false.
Proof. intros H. unfold render. rewrite H. repeat split. Qed.

(** X12: initialisation never stops the stream it captures for the video.
    No run of [loadModel] or of Retry stops any track, whatever fails after
    the capture; the mount effect stops the tracks of the stream it opened
    to trigger the permission prompt, in order, and no others. *)
Theorem only_probe_tracks_stopped (w : W) :
  existsb isTrackStop (traceOf respond loadModel w) = false
  /\ existsb isTrackStop (traceOf respond retry w) = false
  /\ filter isTrackStop (traceOf respond useEffect w) =
      match respond _ permissions_query w with
      | (Resolved prompt, w1) =>
          match respond _ getUserMedia w1 with
          | (Resolved stream, _) => map (fun t => Ev (track_stop t)) stream
          | _ => []
          end
      | _ => []
      end.
Proof.
  assert (Hnone : forall w', filter isTrackStop (traceOf respond loadModel w')
                             = []).
  { intros w'. pose proof (proj1 (loadModel_counts w')) as H.
    rewrite existsb_filter in H.
    destruct (filter isTrackStop (traceOf respond loadModel w'));
      [reflexivity | discriminate H]. }
  split; [apply loadModel_counts | split].
  - rewrite retry_trace. simpl. apply loadModel_counts.
  - destruct (useEffect_cases w)
      as [(w1 & Q & E) | [(w1 & stream & w2 & Q & G & E)
         | [(w1 & err & w2 & Q & G & E) | [(w1 & Q & E) | [(err & w1 & Q & E)
         | [(w1 & err & w2 & Q & G & E) | (err & w1 & Q & E)]]]]]];
      rewrite E, Q; try rewrite G; try reflexivity.
    + simpl. apply Hnone.
    + cbn [filter isTrackStop]. rewrite filter_app, Hnone, app_nil_r.
      apply filter_stops_all.
Qed.

(** X13: whatever error text is stored when the mount effect or a Retry
    ends, it is one of the component's ten fixed texts, none of them empty,
    so the banner shows exactly that text with the Retry button, which
    runs [retry], and the video is hidden. *)
Theorem stored_error_is_shown (w : W) :
  (forall msg,
     errorAfter None (traceOf respond useEffect w) = Some msg ->
     In msg allMessages /\
     bannerOf (render (Some msg)) = [ ([msg], ["Retry"]) ] /\
     handlersOf (render (Some msg)) = [onClick retry] /\
     shown (videoStyles (render (Some msg))) = false)
  /\ (forall e msg,
        errorAfter e (traceOf respond retry w) = Some msg ->
        In msg allMessages /\
        bannerOf (render (Some msg)) = [ ([msg], ["Retry"]) ] /\
        handlersOf (render (Some msg)) = [onClick retry] /\
        shown (videoStyles (render (Some msg))) = false)
  /\ List.length allMessages = 10%nat /\ NoDup allMessages.
Proof.
  assert (Hshow : forall msg, In msg allMessages ->
            In msg allMessages /\
            bannerOf (render (Some msg)) = [ ([msg], ["Retry"]) ] /\
            handlersOf (render (Some msg)) = [onClick retry] /\
            shown (videoStyles (render (Some msg))) = false).
  { intros msg H. split; [exact H | ].
    apply render_truthy. now apply allMessages_truthy. }
  assert (Hlm : forall w' msg,
            errorAfter None (traceOf respond loadModel w') = Some msg ->
            In msg allMessages).
  { intros w' msg H. destruct (loadModel_error w' None) as [E | (m & E & Hm)];
      rewrite E in H; [discriminate H | ]. now injection H as <-. }
  split; [ | split; [ | split]].
  - intros msg H. apply Hshow. revert H.
    destruct (useEffect_cases w)
      as [(w1 & _ & E) | [(w1 & stream & w2 & _ & _ & E)
         | [(w1 & err & w2 & _ & _ & E) | [(w1 & _ & E) | [(err & w1 & _ & E)
         | [(w1 & err & w2 & _ & _ & E) | (err & w1 & _ & E)]]]]]];
      rewrite E.
    + apply Hlm.
    + change (errorAfter None
                (map (fun t => Ev (track_stop t)) stream ++
                 traceOf respond loadModel
                   (worldAfter respond (stopTracks stream) w2)) = Some msg
              -> In msg allMessages).
      rewrite errorAfter_app, errorAfter_stops. apply Hlm.
    + intros H. injection H as <-. apply errorMessage_known.
    + intros H. injection H as <-. unfold allMessages. simpl. auto 12.
    + intros H. injection H as <-. unfold allMessages. simpl. auto 12.
    + intros H. injection H as <-. unfold allMessages. simpl. auto 12.
    + intros H. discriminate H.
  - intros e msg H. apply Hshow. revert H. rewrite retry_trace. apply Hlm.
  - reflexivity.
  - unfold allMessages. simpl.
    repeat (constructor; [simpl; intuition discriminate | ]). constructor.
Qed.

(** X14: one run of the mount effect evaluates the permission-query
    expression exactly once, before anything else; when that expression
    throws the run makes no other call; and in every run the effect asks
    for the camera at most twice, creates at most one detector, stores at
    most one error and starts at most one loop. *)
Theorem mount_call_budget (w : W) :
  (exists rest,
     traceOf respond useEffect w = Ev permissions_query :: rest /\
     existsb isPermissionQuery rest = false)
  /\ (forall err w1,
        respond _ permissions_query w = (Threw err, w1) ->
        traceOf respond useEffect w =
          [Ev permissions_query; Ev (uncaught err)])
  /\ List.length (filter isGetUserMedia (traceOf respond useEffect w)) <= 2
  /\ List.length (filter isCreateDetector (traceOf respond useEffect w)) <= 1
  /\ List.length (filter isSetError (traceOf respond useEffect w)) <= 1
  /\ List.length (filter isLoopStart (traceOf respond useEffect w)) <= 1.
Proof.
  assert (Hthrew : forall err w1,
            respond _ permissions_query w = (Threw err, w1) ->
            traceOf respond useEffect w =
              [Ev permissions_query; Ev (uncaught err)]).
  { intros err w1 Q. unfold useEffect.
    rewrite (traceOf_call_bind _ _ _ _ _ _ _ Q). now rewrite traceOf_call. }
  destruct (useEffect_cases w)
    as [(w1 & _ & E) | [(w1 & stream & w2 & _ & _ & E)
       | [(w1 & err & w2 & _ & _ & E) | [(w1 & _ & E) | [(err & w1 & _ & E)
       | [(w1 & err & w2 & _ & _ & E) | (err & w1 & _ & E)]]]]]];
    (split; [ | split; [exact Hthrew | ]]); rewrite E.
  - eexists; split; [reflexivity | ]. apply loadModel_no_permission_query.
  - destruct (loadModel_counts w1) as (_ & H1 & H2 & H3 & H4). simpl. lia.
  - eexists; split; [reflexivity | ]. simpl.
    rewrite existsb_app, loadModel_no_permission_query, orb_false_r.
    rewrite existsb_filter, (filter_stops isPermissionQuery) by reflexivity.
    reflexivity.
  - destruct (loadModel_counts (worldAfter respond (stopTracks stream) w2))
      as (_ & H1 & H2 & H3 & H4).
    cbn [filter isGetUserMedia isCreateDetector isSetError isLoopStart].
    rewrite !filter_app.
    rewrite (filter_stops isGetUserMedia), (filter_stops isCreateDetector),
      (filter_stops isSetError), (filter_stops isLoopStart) by reflexivity.
    simpl. lia.
  - eexists; split; reflexivity.
  - simpl. lia.
  - eexists; split; reflexivity.
  - simpl. lia.
  - eexists; split; reflexivity.
  - simpl. lia.
  - eexists; split; reflexivity.
  - simpl. lia.
  - eexists; split; reflexivity.
  - simpl. lia.
Qed.

(** X15: a camera failure reaches the user as the text mapped from its
    name. In a world where the model loads, the refs are current and the
    context is obtained, a rejected [getUserMedia] makes [loadModel] store
    the message of that error and stop: the stream is never attached, the
    loop never starts, and a Retry in that world ends the same way. *)
Theorem capture_failure_surfaces (w w1 w2 w3 w4 w5 w6 : W) (b : bool)
    (d : Detector) (err : ErrorValue) :
  respond _ tf_setBackend w = (Resolved b, w1) ->
  respond _ tf_ready w1 = (Resolved tt, w2) ->
  respond _ createDetector w2 = (Resolved d, w3) ->
  respond _ refs_current w3 = (true, w4) ->
  respond _ canvas_getContext w4 = (true, w5) ->
  respond _ getUserMedia
    (snd (respond _ (console_log "Attempting to access user media...") w5)) =
    (Rejected err, w6) ->
  traceOf respond loadModel w =
    [ Ev tf_setBackend; Ev tf_ready; Ev createDetector; Ev refs_current;
      Ev canvas_getContext;
      Ev (console_log "Attempting to access user media...");
      Ev getUserMedia; Ev (setError (Some (errorMessage err)));
      Ev (console_error "Error accessing the webcam:" err) ]
  /\ (forall e,
        errorAfter e (traceOf respond loadModel w) = Some (errorMessage err))
  /\ existsb isLoopStart (traceOf respond loadModel w) = false
  /\ (forall w0 e,
        snd (respond _ (setError None) w0) = w ->
        errorAfter e (traceOf respond retry w0) = Some (errorMessage err)).
Proof.
  intros H1 H2 H3 H4 H5 H6.
  assert (E : traceOf respond loadModel w =
    [ Ev tf_setBackend; Ev tf_ready; Ev createDetector; Ev refs_current;
      Ev canvas_getContext;
      Ev (console_log "Attempting to access user media...");
      Ev getUserMedia; Ev (setError (Some (errorMessage err)));
      Ev (console_error "Error accessing the webcam:" err) ]).
  { unfold loadModel.
    rewrite (traceOf_call_bind _ _ _ _ _ _ _ H1).
    rewrite (traceOf_call_bind _ _ _ _ _ _ _ H2).
    rewrite (traceOf_call_bind _ _ _ _ _ _ _ H3).
    unfold startVideoStream.
    rewrite (traceOf_call_bind _ _ _ _ _ _ _ H4).
    rewrite (traceOf_call_bind _ _ _ _ _ _ _ H5).
    destruct (respond _ (console_log "Attempting to access user media...") w5)
      as [u w5'] eqn:L.
    rewrite (traceOf_call_bind _ _ _ _ _ _ _ L).
    simpl in H6. rewrite (traceOf_call_bind _ _ _ _ _ _ _ H6).
    unfold handleError. now rewrite traceOf_bind, !traceOf_call. }
  split; [exact E | split; [ | split]].
  - intros e. now rewrite E.
  - now rewrite E.
  - intros w0 e Hw. rewrite retry_trace, Hw, E. reflexivity.
Qed.

End MoreRuns.

(** The mount effect in the world that prompts and then grants: the loop
    starts and no error is stored. *)
Lemma loop_start_means_no_error_witness :
  errorAfter None (traceOf (answer (allGood (Resolved prompt))) useEffect tt) =
  None.
Proof.
  apply (proj1 (loop_start_means_no_error unit
                  (answer (allGood (Resolved prompt))) tt) eq_refl).
Defined.

(** The mount effect in a browser without the Permissions API starts no
    loop and stores nothing. *)
Lemma no_loop_means_error_or_silent_witness :
  (exists msg,
     errorAfter None (traceOf (answer noPermissionsApi) useEffect tt)
       = Some msg /\
     In msg allMessages /\ truthy (Some msg) = true)
  \/ (exists before,
        traceOf (answer noPermissionsApi) useEffect tt =
        before ++
        [Ev tf_setBackend; Ev tf_ready; Ev createDetector; Ev refs_current] /\
        errorAfter None (traceOf (answer noPermissionsApi) useEffect tt) = None)
  \/ (exists err,
        traceOf (answer noPermissionsApi) useEffect tt =
        [Ev permissions_query; Ev (uncaught err)] /\
        errorAfter None (traceOf (answer noPermissionsApi) useEffect tt) = None).
Proof.
  apply (no_loop_means_error_or_silent unit (answer noPermissionsApi) tt
           eq_refl).
Defined.

(** The call budget in a browser without the Permissions API. *)
Lemma mount_call_budget_witness :
  traceOf (answer noPermissionsApi) useEffect tt =
  [Ev permissions_query; Ev (uncaught (named "TypeError"))].
Proof.
  apply (proj1 (proj2 (mount_call_budget unit (answer noPermissionsApi) tt))
           (named "TypeError") tt eq_refl).
Defined.

(** A world in which the detector cannot be created. *)
Lemma model_failure_before_capture_witness :
  existsb isGetUserMedia
    (traceOf (answer (mkAnswers (Resolved granted) (Resolved [7%nat])
                        (Resolved true) (Resolved tt) (Rejected newError)
                        true true (Resolved tt))) retry tt) = false.
Proof.
  apply (proj1 (model_failure_before_capture unit
                  (answer (mkAnswers (Resolved granted) (Resolved [7%nat])
                             (Resolved true) (Resolved tt) (Rejected newError)
                             true true (Resolved tt))) tt) None eq_refl).
Defined.

(** The mount effect in the denied world stores the denial message. *)
Lemma stored_error_is_shown_witness :
  bannerOf (render (Some deniedMessage)) = [ ([deniedMessage], ["Retry"]) ].
Proof.
  apply (proj1 (stored_error_is_shown unit (answer deniedWorld) tt)
           deniedMessage eq_refl).
Defined.

(** A world in which no camera is found. *)
Lemma capture_failure_surfaces_witness :
  errorAfter None
    (traceOf (answer (cameraFails (named "NotFoundError"))) loadModel tt) =
  Some "No camera device found. Please ensure a camera is connected and try again.".
Proof.
  apply (proj1 (proj2
           (capture_failure_surfaces unit
              (answer (cameraFails (named "NotFoundError")))
              tt tt tt tt tt tt tt true 1%nat (named "NotFoundError")
              eq_refl eq_refl eq_refl eq_refl eq_refl eq_refl)) None).
Defined.

(** * Further properties of the verdict and of the view *)

Lemma lt_abs_minus_nan_l (b t : number) :
  lt (Math_abs (minus PrimFloat.nan b)) t = false.
Proof.
  unfold lt, Math_abs, minus. rewrite ltb_spec, abs_spec, sub_spec.
  change (Prim2SF PrimFloat.nan) with S754_nan.
  unfold SF64sub. destruct (Prim2SF b); reflexivity.
Qed.

Lemma lt_abs_minus_nan_r (a t : number) :
  lt (Math_abs (minus a PrimFloat.nan)) t = false.
Proof.
  unfold lt, Math_abs, minus. rewrite ltb_spec, abs_spec, sub_spec.
  change (Prim2SF PrimFloat.nan) with S754_nan.
  unfold SF64sub. destruct (Prim2SF a); reflexivity.
Qed.

(** X16: values that are not numbers fail closed. A pose in which the
    keypoint found for one of the four required names has a NaN
    y-coordinate is never perfect, and a keypoint whose score is NaN is
    never confident, so it gets no dot. *)
Theorem nan_fails_closed :
  (forall pose n k,
     In n requiredNames ->
     findByName n pose = Some k ->
     y k = PrimFloat.nan ->
     isPerfectAngle pose = false /\ colorOf pose = "red")
  /\ (forall k color ctx,
        score k = Some PrimFloat.nan ->
        confident k = false /\ drawKeypoint color ctx k = ctx).
Proof.
  split.
  - intros pose n k Hn Hk Hy.
    assert (H : isPerfectAngle pose = false).
    { unfold isPerfectAngle, requiredNames in *. simpl in Hn.
      destruct Hn as [<- | [<- | [<- | [<- | []]]]]; rewrite Hk, Hy;
        repeat match goal with
               | |- context [findByName ?m pose] =>
                   destruct (findByName m pose); try reflexivity
               end;
        cbv zeta;
        rewrite ?lt_abs_minus_nan_l, ?lt_abs_minus_nan_r, ?andb_false_r;
        reflexivity. }
    split; [exact H | ]. unfold colorOf. now rewrite H.
  - intros k color ctx Hs.
    assert (H : confident k = false).
    { unfold confident. rewrite Hs. apply gt_nan_l. }
    split; [exact H | ]. unfold drawKeypoint. now rewrite H.
Qed.

(** The level pose with a left hip at no height. *)
Lemma nan_fails_closed_witness : colorOf brokenPose = "red".
Proof.
  apply (proj1 nan_fails_closed brokenPose "left_hip"
           (keypointAt "left_hip" 290%float PrimFloat.nan nineTenths)).
  - simpl. auto.
  - reflexivity.
  - reflexivity.
Defined.

(** X17: a pose with fewer than four keypoints is never perfect, since the
    four required names need four different keypoints; in particular an
    empty pose is red. *)
Theorem few_keypoints_never_perfect (pose : Pose) :
  List.length (keypoints pose) < 4 ->
  isPerfectAngle pose = false /\ colorOf pose = "red".
Proof.
  intros Hlen.
  assert (H : isPerfectAngle pose = false).
  { unfold isPerfectAngle.
    destruct (findByName "left_shoulder" pose) as [ls | ] eqn:E1;
      [ | reflexivity].
    destruct (findByName "right_shoulder" pose) as [rs | ] eqn:E2;
      [ | reflexivity].
    destruct (findByName "left_hip" pose) as [lh | ] eqn:E3; [ | reflexivity].
    destruct (findByName "right_hip" pose) as [rh | ] eqn:E4; [ | reflexivity].
    exfalso.
    apply findByName_name in E1, E2, E3, E4.
    destruct E1 as [I1 N1], E2 as [I2 N2], E3 as [I3 N3], E4 as [I4 N4].
    assert (Hnd : NoDup [ls; rs; lh; rh]).
    { repeat constructor; simpl;
        intuition (subst; congruence). }
    assert (Hincl : incl [ls; rs; lh; rh] (keypoints pose)).
    { intros k Hk. simpl in Hk.
      destruct Hk as [<- | [<- | [<- | [<- | []]]]]; assumption. }
    pose proof (NoDup_incl_length Hnd Hincl) as Hle. simpl in Hle. lia. }
  split; [exact H | ]. unfold colorOf. now rewrite H.
Qed.

(** The two shoulders alone. *)
Lemma few_keypoints_never_perfect_witness :
  colorOf (mkPose [ keypointAt "left_shoulder" 300%float 100%float nineTenths;
                    keypointAt "right_shoulder" 200%float 105%float nineTenths ])
  = "red".
Proof.
  apply (few_keypoints_never_perfect
           (mkPose [ keypointAt "left_shoulder" 300%float 100%float nineTenths;
                     keypointAt "right_shoulder" 200%float 105%float
                                nineTenths ])).
  simpl. lia.
Defined.

(** X18: the view has the banner exactly when the error is a non-empty
    string, and exactly then the video is hidden; the banner carries the
    error's text and one Retry button; there is always one video element
    and one canvas element, and the canvas's style never changes. An empty
    error string renders like no error. *)
Theorem render_spec (error : option string) :
  canvasStyles (render error) =
    [ [("position", "absolute"); ("top", "0"); ("left", "0")] ]
  /\ List.length (videoStyles (render error)) = 1%nat
  /\ shown (videoStyles (render error)) = negb (truthy error)
  /\ bannerOf (render error) =
       match error with
       | Some text => if truthy error then [ ([text], ["Retry"]) ] else []
       | None => []
       end
  /\ List.length (handlersOf (render error)) =
       List.length (bannerOf (render error))
  /\ (truthy error = false -> render error = render None).
Proof.
  destruct error as [text | ].
  - unfold render. destruct (truthy (Some text)) eqn:T;
      repeat split; try reflexivity. discriminate.
  - repeat split.
Qed.
